(** * OriginSync: the reconciliation engine of [originsync.go]

    A shallow embedding of the Go program that mirrors Kubernetes NodePort
    services into remote "origin pool" resources, and the properties of its
    name canonicalizer, endpoint resolver and reconciler.

    Go strings are byte strings: they are modelled by [string], whose
    characters are the 8-bit [ascii] values.  Runes are [Z]. *)

From Stdlib Require Import ZArith Ascii String List Bool Lia.
From stdpp Require Import base option list strings gmap.

Local Open Scope string_scope.
Local Open Scope list_scope.
Local Open Scope Z_scope.

(** ** Bytes, runes and UTF-8 (packages [unicode/utf8], [unicode], [strings]) *)

Module Go.

Definition byte_val (c : ascii) : Z := Z.of_N (N_of_ascii c).
Definition byte_of (z : Z) : ascii := ascii_of_N (Z.to_N (z mod 256)).

(** [len(s)] *)
Definition len (s : string) : Z := Z.of_nat (String.length s).

(** [s[:n]] for [0 <= n <= len(s)] (Go panics outside that range; every use
    below is inside it). *)
Definition slice_to (s : string) (n : Z) : string := substring 0 (Z.to_nat n) s.

Definition RuneError : Z := 0xFFFD.
Definition MaxRune : Z := 0x10FFFF.

(** The [first] table of [unicode/utf8]: information about the first byte
    of a sequence.  The low three bits are the length of the sequence, the
    high four bits index [acceptRanges]. *)
Definition first (s0 : Z) : Z :=
  if s0 <? 0x80 then 0xF0        (* as: ASCII *)
  else if s0 <? 0xC2 then 0xF1   (* xx: invalid *)
  else if s0 <? 0xE0 then 0x02   (* s1 *)
  else if s0 =? 0xE0 then 0x13   (* s2 *)
  else if s0 <? 0xED then 0x03   (* s3 *)
  else if s0 =? 0xED then 0x23   (* s4 *)
  else if s0 <? 0xF0 then 0x03   (* s3 *)
  else if s0 =? 0xF0 then 0x34   (* s5 *)
  else if s0 <? 0xF4 then 0x04   (* s6 *)
  else if s0 =? 0xF4 then 0x44   (* s7 *)
  else 0xF1.                     (* xx *)

(** [acceptRanges]: the accepted range of the second byte. *)
Definition acceptRanges (k : Z) : Z * Z :=
  if k =? 1 then (0xA0, 0xBF)
  else if k =? 2 then (0x80, 0x9F)
  else if k =? 3 then (0x90, 0xBF)
  else if k =? 4 then (0x80, 0x8F)
  else (0x80, 0xBF).

Definition cont (c : ascii) : bool := (0x80 <=? byte_val c) && (byte_val c <=? 0xBF).

(** [utf8.DecodeRuneInString]: the rune at the front of [s] and its width
    in bytes.  An invalid or short sequence decodes to [(RuneError, 1)]. *)
Definition DecodeRuneInString (s : string) : Z * nat :=
  match s with
  | EmptyString => (RuneError, 0%nat)
  | String c0 t =>
      let s0 := byte_val c0 in
      let x := first s0 in
      if 0xF0 <=? x then
        (if x =? 0xF0 then s0 else RuneError, 1%nat)
      else
        let sz := Z.land x 7 in
        let '(lo, hi) := acceptRanges (Z.shiftr x 4) in
        match t with
        | EmptyString => (RuneError, 1%nat)
        | String c1 t1 =>
            let s1 := byte_val c1 in
            if (s1 <? lo) || (hi <? s1) then (RuneError, 1%nat)
            else if sz <=? 2 then
              (Z.lor (Z.shiftl (Z.land s0 0x1F) 6) (Z.land s1 0x3F), 2%nat)
            else
              match t1 with
              | EmptyString => (RuneError, 1%nat)
              | String c2 t2 =>
                  let s2 := byte_val c2 in
                  if negb (cont c2) then (RuneError, 1%nat)
                  else if sz <=? 3 then
                    (Z.lor (Z.lor (Z.shiftl (Z.land s0 0x0F) 12)
                                  (Z.shiftl (Z.land s1 0x3F) 6))
                           (Z.land s2 0x3F), 3%nat)
                  else
                    match t2 with
                    | EmptyString => (RuneError, 1%nat)
                    | String c3 _ =>
                        let s3 := byte_val c3 in
                        if negb (cont c3) then (RuneError, 1%nat)
                        else
                          (Z.lor (Z.lor (Z.lor (Z.shiftl (Z.land s0 0x07) 18)
                                               (Z.shiftl (Z.land s1 0x3F) 12))
                                        (Z.shiftl (Z.land s2 0x3F) 6))
                                 (Z.land s3 0x3F), 4%nat)
                    end
              end
        end
  end.

(** [for i, ch := range s]: the byte offset and the rune of every
    iteration.  [skip] counts the bytes of the current rune still to pass. *)
Fixpoint range_from (i : Z) (skip : nat) (s : string) : list (Z * Z) :=
  match s with
  | EmptyString => []
  | String _ t =>
      match skip with
      | S k => range_from (i + 1) k t
      | O => let '(r, size) := DecodeRuneInString s in
             (i, r) :: range_from (i + 1) (Nat.pred size) t
      end
  end.

Definition range_string (s : string) : list (Z * Z) := range_from 0 0 s.

(** [utf8.AppendRune], which is also the conversion [string(r)] of a rune:
    values that are not valid code points are written as [RuneError]. *)
Definition encode3 (r : Z) : string :=
  String (byte_of (Z.lor 0xE0 (Z.shiftr r 12)))
    (String (byte_of (Z.lor 0x80 (Z.land (Z.shiftr r 6) 0x3F)))
      (String (byte_of (Z.lor 0x80 (Z.land r 0x3F))) EmptyString)).

Definition string_of_rune (r : Z) : string :=
  if (0 <=? r) && (r <=? 0x7F) then String (byte_of r) EmptyString
  else if (0 <=? r) && (r <=? 0x7FF) then
    String (byte_of (Z.lor 0xC0 (Z.shiftr r 6)))
      (String (byte_of (Z.lor 0x80 (Z.land r 0x3F))) EmptyString)
  else if (r <? 0) || (MaxRune <? r) || ((0xD800 <=? r) && (r <=? 0xDFFF)) then
    encode3 RuneError
  else if r <=? 0xFFFF then encode3 r
  else
    String (byte_of (Z.lor 0xF0 (Z.shiftr r 18)))
      (String (byte_of (Z.lor 0x80 (Z.land (Z.shiftr r 12) 0x3F)))
        (String (byte_of (Z.lor 0x80 (Z.land (Z.shiftr r 6) 0x3F)))
          (String (byte_of (Z.lor 0x80 (Z.land r 0x3F))) EmptyString))).

(** The range tables of package [unicode] above Latin-1 ([unicode.Letter],
    [unicode.Digit]) and its case mapping above ASCII ([unicode.CaseRanges])
    are data of the Go distribution; the development is parametric in them. *)
Class UnicodeTables := {
  Letter_excludingLatin : Z -> bool;
  Digit_excludingLatin : Z -> bool;
  To_LowerCase : Z -> Z }.

(** [properties[uint8(r)] & pLmask != 0]: the letters of Latin-1. *)
Definition latin1_letter (r : Z) : bool :=
  ((0x41 <=? r) && (r <=? 0x5A)) || ((0x61 <=? r) && (r <=? 0x7A))
  || (r =? 0xAA) || (r =? 0xB5) || (r =? 0xBA)
  || ((0xC0 <=? r) && (r <=? 0xD6)) || ((0xD8 <=? r) && (r <=? 0xF6))
  || ((0xF8 <=? r) && (r <=? 0xFF)).

Section Unicode.
Context {U : UnicodeTables}.

Definition unicode_IsLetter (r : Z) : bool :=
  if (0 <=? r) && (r <=? 0xFF) then latin1_letter r else Letter_excludingLatin r.

Definition unicode_IsDigit (r : Z) : bool :=
  if r <=? 0xFF then (0x30 <=? r) && (r <=? 0x39) else Digit_excludingLatin r.

Definition unicode_ToLower (r : Z) : Z :=
  if r <=? 0x7F then
    (if (0x41 <=? r) && (r <=? 0x5A) then r + 0x20 else r)
  else To_LowerCase r.

(** [strings.Map]: every rune of [s] is mapped and written back; a negative
    result drops the rune, an invalid byte is read as [RuneError]. *)
Definition strings_Map (mapping : Z -> Z) (s : string) : string :=
  fold_right (fun '(_, c) acc =>
                let r := mapping c in
                if 0 <=? r then string_of_rune r +:+ acc else acc)
             EmptyString (range_string s).

Fixpoint map_bytes (f : ascii -> ascii) (s : string) : string :=
  match s with
  | EmptyString => EmptyString
  | String c t => String (f c) (map_bytes f t)
  end.

Fixpoint all_bytes (p : ascii -> bool) (s : string) : bool :=
  match s with
  | EmptyString => true
  | String c t => p c && all_bytes p t
  end.

Definition is_upper_byte (c : ascii) : bool :=
  (0x41 <=? byte_val c) && (byte_val c <=? 0x5A).

Definition lower_byte (c : ascii) : ascii :=
  if is_upper_byte c then byte_of (byte_val c + 0x20) else c.

(** [strings.ToLower]: a byte loop for ASCII-only strings, [strings.Map]
    with [unicode.ToLower] otherwise. *)
Definition strings_ToLower (s : string) : string :=
  if all_bytes (fun c => byte_val c <? 0x80) s then
    (if all_bytes (fun c => negb (is_upper_byte c)) s then s
     else map_bytes lower_byte s)
  else strings_Map unicode_ToLower s.

(** [strings.ReplaceAll(s, old, new)] for a one-byte [old] and [new]. *)
Definition strings_ReplaceAll1 (s : string) (old new : ascii) : string :=
  map_bytes (fun c => if Ascii.eqb c old then new else c) s.

End Unicode.
End Go.

Import Go.

(** ** The name canonicalizer: [formatServiceName] *)

Section Canonicalizer.
Context {U : UnicodeTables}.

(** [for len(formattedName) > 0 && !unicode.IsLetter(rune(formattedName[0]))
    { formattedName = formattedName[1:] }]: the test converts the first
    BYTE to a rune. *)
Fixpoint strip_leading (formattedName : string) : string :=
  match formattedName with
  | EmptyString => EmptyString
  | String c t =>
      if unicode_IsLetter (byte_val c) then formattedName else strip_leading t
  end.

(** One iteration of the [range] loop over [formattedName]. *)
Definition keep_step (formattedName : string) (temp : string) (ich : Z * Z) : string :=
  let '(i, ch) := ich in
  let temp :=
    if unicode_IsLetter ch || unicode_IsDigit ch || (ch =? 0x2D)
    then temp +:+ string_of_rune ch else temp in
  if (i =? len formattedName - 1) && (ch =? 0x2D)
  then slice_to temp (len temp - 1) else temp.

Definition formatServiceName (serviceName : string) : string :=
  let formattedName := strings_ReplaceAll1 serviceName "." "-" in
  let formattedName := strings_ToLower formattedName in
  let formattedName := strip_leading formattedName in
  fold_left (keep_step formattedName) (range_string formattedName) EmptyString.

End Canonicalizer.

(** The shape a canonical resource name is specified to have:
    [^[a-z]([a-z0-9-]*[a-z0-9])?$], or empty. *)
Definition is_lower (c : ascii) : bool := (0x61 <=? byte_val c) && (byte_val c <=? 0x7A).
Definition is_digit (c : ascii) : bool := (0x30 <=? byte_val c) && (byte_val c <=? 0x39).
Definition is_hyphen (c : ascii) : bool := byte_val c =? 0x2D.

Fixpoint last_byte (c : ascii) (s : string) : ascii :=
  match s with
  | EmptyString => c
  | String c' t => last_byte c' t
  end.

Definition good_byte (c : ascii) : bool := is_lower c || is_digit c || is_hyphen c.

Definition is_ascii (s : string) : bool := all_bytes (fun c => byte_val c <? 0x80) s.

(** A string is lowered when its bytes are ASCII and none is an upper-case
    letter: the state of [formattedName] after [strings.ToLower]. *)
Definition lowered (s : string) : bool :=
  all_bytes (fun c => (byte_val c <? 0x80) && negb (is_upper_byte c)) s.

(** The bytes of [s] with their offsets from [i]: what [range] yields on an
    ASCII string. *)
Fixpoint indexed (i : Z) (s : string) : list (Z * Z) :=
  match s with
  | EmptyString => []
  | String c t => (i, byte_val c) :: indexed (i + 1) t
  end.

Definition ends_with_hyphen (s : string) : bool :=
  match s with
  | EmptyString => false
  | String c t => is_hyphen (last_byte c t)
  end.

Definition canonical_name (s : string) : bool :=
  match s with
  | EmptyString => true
  | String c t =>
      is_lower c
      && all_bytes good_byte t
      && negb (is_hyphen (last_byte c t))
  end.

(** ** Cluster objects (package [corev1]) *)

Module corev1.

Record ServicePort := { NodePort : Z }.

Record Service := {
  Name : string;
  Namespace : string;
  Spec_Type : string;
  Spec_Selector : gmap string string;
  Spec_Ports : list ServicePort }.

Definition ServiceTypeNodePort : string := "NodePort".

Record Pod := { Pod_Name : string; Spec_NodeName : string }.

Record NodeAddress := { Addr_Type : string; Address : string }.

Definition NodeInternalIP : string := "InternalIP".

Record Node := { Status_Addresses : list NodeAddress }.

End corev1.

(** ** Errors, log lines and HTTP messages *)

(** A Go [error]: one produced by a library call, or one built by
    [fmt.Errorf] from a format and its arguments: strings ([%s]), then
    possibly a last error argument ([%v]). *)
Inductive error :=
| LibError (msg : string)
| Errorf (format : string) (args : list string)
| Errorf_v (format : string) (args : list string) (err : error).

Inductive Arg := AStr (s : string) | AInt (n : Z) | AErr (e : error).

(** The JSON text produced by [json.Marshal], as a tree. *)
#[local] Set Warnings "-register-all".
Inductive JSON :=
| JNull
| JBool (b : bool)
| JNumber (n : Z)
| JString (s : string)
| JArray (l : list JSON)
| JObject (fields : list (string * JSON)).
#[local] Set Warnings "register-all".

Module http.

Definition StatusOK : Z := 200.
Definition StatusNotFound : Z := 404.

Record Request := {
  Method : string;
  URL : string;
  Header : gmap string string;
  Body : option JSON }.

Record Response := { StatusCode : Z; Status : string }.

(** [http.Client]: only its [Timeout] (in seconds, 0 for none) is set. *)
Record Client := { Timeout : Z }.

Definition DefaultClient : Client := {| Timeout := 0 |}.

(** [req.Header.Set(key, value)] *)
Definition Header_Set (key value : string) (req : Request) : Request :=
  {| Method := Method req; URL := URL req;
     Header := <[key := value]> (Header req); Body := Body req |}.

End http.

(** What a run does to the outside: lines written with [log.Printf] or
    [log.Println], and requests sent with [client.Do]. *)
Inductive Event :=
| Log (format : string) (args : list Arg)
| Do (client : http.Client) (req : http.Request).

(** ** structures.go

    The declarations [originsync.go] compiles against, in which [Spec.Port]
    is an [int32], [Delete] is declared and [Site] has three fields.  (An
    earlier revision of the file has no [Delete], an [int] port and a
    fourth field [Tenant] in [Site]; [originsync.go] does not compile
    against it.)  A [map[string]interface{}] is [None] when nil and
    otherwise holds its entries. *)

Record Site := { Site_Namespace : string; Site_Name : string; Site_Kind : string }.

Record SiteLocator := { SiteLocator_Site : Site }.

Record PrivateIP := {
  IP : string;
  PrivateIP_SiteLocator : SiteLocator;
  InsideNetwork : option (list (string * JSON));
  OutsideNetwork : option (list (string * JSON)) }.

Record OriginServer := { OriginServer_PrivateIP : PrivateIP }.

Record Metadata := { Name : string; Description : string; Disable : bool }.

Record Spec := {
  OriginServers : list OriginServer;
  NoTLS : option (list (string * JSON));
  Port : Z;
  SameAsEndpointPort : option (list (string * JSON));
  LoadbalancerAlgorithm : string;
  EndpointSelection : string }.

Record OriginPool := { OriginPool_Metadata : Metadata; OriginPool_Spec : Spec }.

Record Delete := { FailIfReferred : bool; Delete_Name : string; Delete_Namespace : string }.

(** [json.Marshal] on these types, following the field tags.  A nil map is
    written [null], a non-nil one as an object.  It cannot fail on them. *)
Module json.

Definition of_map (m : option (list (string * JSON))) : JSON :=
  match m with None => JNull | Some kvs => JObject kvs end.

Definition of_Site (s : Site) : JSON :=
  JObject [("namespace", JString (Site_Namespace s));
           ("name", JString (Site_Name s));
           ("kind", JString (Site_Kind s))].

Definition of_SiteLocator (l : SiteLocator) : JSON :=
  JObject [("site", of_Site (SiteLocator_Site l))].

Definition of_PrivateIP (p : PrivateIP) : JSON :=
  JObject [("ip", JString (IP p));
           ("site_locator", of_SiteLocator (PrivateIP_SiteLocator p));
           ("inside_network", of_map (InsideNetwork p));
           ("outside_network", of_map (OutsideNetwork p))].

Definition of_OriginServer (o : OriginServer) : JSON :=
  JObject [("private_ip", of_PrivateIP (OriginServer_PrivateIP o))].

Definition of_Metadata (m : Metadata) : JSON :=
  JObject [("name", JString (Name m));
           ("description", JString (Description m));
           ("disable", JBool (Disable m))].

Definition of_Spec (s : Spec) : JSON :=
  JObject [("origin_servers", JArray (map of_OriginServer (OriginServers s)));
           ("no_tls", of_map (NoTLS s));
           ("port", JNumber (Port s));
           ("same_as_endpoint_port", of_map (SameAsEndpointPort s));
           ("loadbalancer_algorithm", JString (LoadbalancerAlgorithm s));
           ("endpoint_selection", JString (EndpointSelection s))].

Definition Marshal_OriginPool (p : OriginPool) : JSON :=
  JObject [("metadata", of_Metadata (OriginPool_Metadata p));
           ("spec", of_Spec (OriginPool_Spec p))].

Definition Marshal_Delete (d : Delete) : JSON :=
  JObject [("fail_if_referred", JBool (FailIfReferred d));
           ("name", JString (Delete_Name d));
           ("namespace", JString (Delete_Namespace d))].

End json.

(** ** The outside world and the effects of a run *)

(** The cluster API behind a [*kubernetes.Clientset]: listing the pods of a
    namespace that match a label set, and getting a node by name. *)
Record Clientset := {
  Pods_List : string -> gmap string string -> list corev1.Pod + error;
  Nodes_Get : string -> corev1.Node + error }.

(** The process environment, the URL parser behind [http.NewRequest]
    ([None] when the URL parses) and the remote API answering a request. *)
Record World := {
  environ : gmap string string;
  url_Parse : string -> option error;
  client_Do : http.Client -> http.Request -> http.Response + error }.

Definition os_Getenv (w : World) (key : string) : string :=
  default "" (environ w !! key).

(** The world after [os.Setenv(key, value)]. *)
Definition setenv (key value : string) (w : World) : World :=
  {| environ := <[key := value]> (environ w);
     url_Parse := url_Parse w;
     client_Do := client_Do w |}.

(** A computation yields the events it caused, in order, and its result. *)
Definition M (A : Type) : Type := (list Event * A)%type.

Definition ret {A} (a : A) : M A := ([], a).

Definition bind {A B} (m : M A) (k : A -> M B) : M B :=
  let '(t1, a) := m in let '(t2, b) := k a in (t1 ++ t2, b).

Notation "'let*' x := m 'in' k" := (bind m (fun x => k))
  (at level 10, x pattern, m at level 100, k at level 200, only parsing).

Definition trace {A} (m : M A) : list Event := fst m.

Definition log_Printf (format : string) (args : list Arg) : M unit :=
  ([Log format args], tt).

Definition log_Println (line : string) : M unit := ([Log line []], tt).

(** [http.NewRequest(method, url, body)] for a valid method: it fails when
    the URL does not parse. *)
Definition http_NewRequest (w : World) (method url : string) (body : option JSON)
  : http.Request + error :=
  match url_Parse w url with
  | Some err => inr err
  | None => inl {| http.Method := method; http.URL := url;
                   http.Header := ∅; http.Body := body |}
  end.

(** [client.Do(req)] *)
Definition Do_ (w : World) (client : http.Client) (req : http.Request)
  : M (http.Response + error) :=
  ([Do client req], client_Do w client req).

(** The requests sent during a run. *)
Definition requests (t : list Event) : list http.Request :=
  omap (fun e => match e with Do _ req => Some req | Log _ _ => None end) t.

(** ** originsync.go *)

Section Program.
Context {U : UnicodeTables}.

(** The package-level variables, read from the environment at start-up. *)
Definition k8s_namespace (w : World) := os_Getenv w "KUBE_NAMESPACE".
Definition xc_namespace (w : World) := os_Getenv w "XC_NAMESPACE".
Definition xc_token (w : World) := os_Getenv w "XC_TOKEN".
Definition xc_sitename (w : World) := os_Getenv w "XC_SITENAME".
Definition xc_siteinterface (w : World) := os_Getenv w "XC_SITEINTERFACE".
Definition api_domain (w : World) := os_Getenv w "API_DOMAIN".

Definition checkOriginPoolExists (w : World) (service : corev1.Service)
  : M (bool * option error) :=
  let formattedServiceName := formatServiceName (corev1.Name service) in
  let url := api_domain w +:+ "/api/config/namespaces/" +:+ xc_namespace w
             +:+ "/origin_pools/" +:+ formattedServiceName in
  match http_NewRequest w "GET" url None with
  | inr err => ret (false, Some (Errorf_v "error creating request: %v" [] err))
  | inl req =>
      let req := http.Header_Set "Authorization" ("APIToken " +:+ xc_token w) req in
      let client := {| http.Timeout := 10 |} in
      let* r := Do_ w client req in
      match r with
      | inr err => ret (false, Some (Errorf_v "error sending request to API: %v" [] err))
      | inl resp =>
          if http.StatusCode resp =? http.StatusOK then ret (true, None)
          else if http.StatusCode resp =? http.StatusNotFound then ret (false, None)
          else ret (false, Some (Errorf "unexpected HTTP status: %s" [http.Status resp]))
      end
  end.

(** [for _, addr := range node.Status.Addresses]: the first address of type
    [NodeInternalIP], at which the loop breaks. *)
Fixpoint firstInternalIP (addrs : list corev1.NodeAddress) : option string :=
  match addrs with
  | [] => None
  | addr :: rest =>
      if String.eqb (corev1.Addr_Type addr) corev1.NodeInternalIP
      then Some (corev1.Address addr)
      else firstInternalIP rest
  end.

(** [for _, pod := range pods.Items], with the loop's variables [nodeIPs]
    and [nodeNames]. *)
Fixpoint forPods (clientset : Clientset) (items : list corev1.Pod)
    (nodeIPs : list string) (nodeNames : gmap string bool)
  : M (list string * gmap string bool) :=
  match items with
  | [] => ret (nodeIPs, nodeNames)
  | pod :: rest =>
      match nodeNames !! corev1.Spec_NodeName pod with
      | Some _ => forPods clientset rest nodeIPs nodeNames
      | None =>
          match Nodes_Get clientset (corev1.Spec_NodeName pod) with
          | inr err =>
              let* _ := log_Printf "Error fetching node %s for pod %s: %v"
                          [AStr (corev1.Spec_NodeName pod); AStr (corev1.Pod_Name pod); AErr err] in
              forPods clientset rest nodeIPs nodeNames
          | inl node =>
              match firstInternalIP (corev1.Status_Addresses node) with
              | Some address =>
                  forPods clientset rest (nodeIPs ++ [address])
                          (<[corev1.Spec_NodeName pod := true]> nodeNames)
              | None => forPods clientset rest nodeIPs nodeNames
              end
          end
      end
  end.

Definition getNodeIPsForService (clientset : Clientset) (service : corev1.Service)
  : M (list string * option error) :=
  match Pods_List clientset (corev1.Namespace service) (corev1.Spec_Selector service) with
  | inr err =>
      ret ([], Some (Errorf_v "error fetching pods for service %s: %v"
                              [corev1.Name service] err))
  | inl items =>
      let* (nodeIPs, _) := forPods clientset items [] ∅ in
      ret (nodeIPs, None)
  end.

Definition createOriginPool (w : World) (clientset : Clientset) (service : corev1.Service)
  : M unit :=
  let formattedServiceName := formatServiceName (corev1.Name service) in
  let* (nodeIPs, err) := getNodeIPsForService clientset service in
  match err with
  | Some err => log_Printf "Error fetching node IPs: %v" [AErr err]
  | None =>
  if (length nodeIPs =? 0)%nat then
    log_Printf "No nodes found for service %s, skipping origin pool creation"
               [AStr (corev1.Name service)]
  else
  (* var nodePort int32: the first port's NodePort, when there is one *)
  match match corev1.Spec_Ports service with
        | port0 :: _ =>
            if negb (corev1.NodePort port0 =? 0) then Some (corev1.NodePort port0) else None
        | [] => None
        end with
  | None =>
      log_Printf "No NodePort found for service %s, skipping origin pool creation"
                 [AStr (corev1.Name service)]
  | Some nodePort =>
  let apiDomain := os_Getenv w "API_DOMAIN" in
  let xcNamespace := os_Getenv w "XC_NAMESPACE" in
  let url := apiDomain +:+ "/api/config/namespaces/" +:+ xcNamespace +:+ "/origin_pools" in
  let originServers :=
    map (fun ip =>
           {| OriginServer_PrivateIP :=
                {| IP := ip;
                   PrivateIP_SiteLocator :=
                     {| SiteLocator_Site :=
                          {| Site_Namespace := "system";
                             Site_Name := xc_sitename w;
                             Site_Kind := "site" |} |};
                   InsideNetwork := Some [];
                   OutsideNetwork := None |} |}) nodeIPs in
  let payload :=
    {| OriginPool_Metadata :=
         {| Name := formattedServiceName;
            Description := "Created by OriginSync";
            Disable := false |};
       OriginPool_Spec :=
         {| OriginServers := originServers;
            NoTLS := Some [];
            Port := nodePort;
            SameAsEndpointPort := Some [];
            LoadbalancerAlgorithm := "LB_OVERRIDE";
            EndpointSelection := "LOCAL_PREFERRED" |} |} in
  let jsonData := json.Marshal_OriginPool payload in
  let xcToken := os_Getenv w "XC_TOKEN" in
  match http_NewRequest w "POST" url (Some jsonData) with
  | inr err => log_Printf "Error creating request: %v" [AErr err]
  | inl req =>
      let req := http.Header_Set "Content-Type" "application/json" req in
      let req := http.Header_Set "Authorization" ("APIToken " +:+ xcToken) req in
      let* r := Do_ w http.DefaultClient req in
      match r with
      | inr err => log_Printf "Error sending request to API: %v" [AErr err]
      | inl resp =>
          if negb (http.StatusCode resp =? http.StatusOK)
          then log_Printf "Failed to create/update origin pool: %s" [AStr (http.Status resp)]
          else log_Println "Successfully created/updated origin pool"
      end
  end
  end
  end.

Definition updateOriginPool (w : World) (clientset : Clientset) (service : corev1.Service)
  : M unit :=
  let formattedServiceName := formatServiceName (corev1.Name service) in
  let* (nodeIPs, err) := getNodeIPsForService clientset service in
  match err with
  | Some err => log_Printf "Error fetching node IPs: %v" [AErr err]
  | None =>
  if (length nodeIPs =? 0)%nat then
    log_Printf "No nodes found for service %s, skipping origin pool creation"
               [AStr (corev1.Name service)]
  else
  match match corev1.Spec_Ports service with
        | port0 :: _ =>
            if negb (corev1.NodePort port0 =? 0) then Some (corev1.NodePort port0) else None
        | [] => None
        end with
  | None =>
      log_Printf "No NodePort found for service %s, skipping origin pool creation"
                 [AStr (corev1.Name service)]
  | Some nodePort =>
  let apiDomain := os_Getenv w "API_DOMAIN" in
  let xcNamespace := os_Getenv w "XC_NAMESPACE" in
  let url := apiDomain +:+ "/api/config/namespaces/" +:+ xcNamespace
             +:+ "/origin_pools/" +:+ formattedServiceName in
  let originServers :=
    map (fun ip =>
           {| OriginServer_PrivateIP :=
                {| IP := ip;
                   PrivateIP_SiteLocator :=
                     {| SiteLocator_Site :=
                          {| Site_Namespace := "system";
                             Site_Name := xc_sitename w;
                             Site_Kind := "site" |} |};
                   InsideNetwork := Some [];
                   OutsideNetwork := None |} |}) nodeIPs in
  let payload :=
    {| OriginPool_Metadata :=
         {| Name := formattedServiceName;
            Description := "Created by OriginSync";
            Disable := false |};
       OriginPool_Spec :=
         {| OriginServers := originServers;
            NoTLS := Some [];
            Port := nodePort;
            SameAsEndpointPort := Some [];
            LoadbalancerAlgorithm := "LB_OVERRIDE";
            EndpointSelection := "LOCAL_PREFERRED" |} |} in
  let jsonData := json.Marshal_OriginPool payload in
  let xcToken := os_Getenv w "XC_TOKEN" in
  match http_NewRequest w "PUT" url (Some jsonData) with
  | inr err => log_Printf "Error creating request: %v" [AErr err]
  | inl req =>
      let req := http.Header_Set "Content-Type" "application/json" req in
      let req := http.Header_Set "Authorization" ("APIToken " +:+ xcToken) req in
      let* r := Do_ w http.DefaultClient req in
      match r with
      | inr err => log_Printf "Error sending request to API: %v" [AErr err]
      | inl resp =>
          if negb (http.StatusCode resp =? http.StatusOK)
          then log_Printf "Failed to create/update origin pool: %s" [AStr (http.Status resp)]
          else log_Println "Successfully created/updated origin pool"
      end
  end
  end
  end.

Definition manageOriginPool (w : World) (clientset : Clientset) (service : corev1.Service)
  : M unit :=
  let* (exists_, err) := checkOriginPoolExists w service in
  match err with
  | Some err => log_Printf "Error checking if origin pool exists: %v" [AErr err]
  | None =>
      if exists_ then
        let* _ := log_Printf "Origin pool already exists, updating: %s"
                    [AStr (corev1.Name service)] in
        updateOriginPool w clientset service
      else
        let* _ := log_Printf "Creating new origin pool: %s" [AStr (corev1.Name service)] in
        createOriginPool w clientset service
  end.

Definition deleteOriginPool (w : World) (service : corev1.Service) : M unit :=
  let formattedServiceName := formatServiceName (corev1.Name service) in
  let apiDomain := os_Getenv w "API_DOMAIN" in
  let xcNamespace := os_Getenv w "XC_NAMESPACE" in
  let url := apiDomain +:+ "/api/config/namespaces/" +:+ xcNamespace
             +:+ "/origin_pools/" +:+ formattedServiceName in
  let deletePayload :=
    {| FailIfReferred := false;
       Delete_Name := formattedServiceName;
       Delete_Namespace := xcNamespace |} in
  let jsonData := json.Marshal_Delete deletePayload in
  match http_NewRequest w "DELETE" url (Some jsonData) with
  | inr err => log_Printf "Error creating DELETE request: %v" [AErr err]
  | inl req =>
      let req := http.Header_Set "Content-Type" "application/json" req in
      let xcToken := os_Getenv w "XC_TOKEN" in
      let req := http.Header_Set "Authorization" ("APIToken " +:+ xcToken) req in
      let client := {| http.Timeout := 10 |} in
      let* r := Do_ w client req in
      match r with
      | inr err => log_Printf "Error sending DELETE request: %v" [AErr err]
      | inl resp =>
          if negb (http.StatusCode resp =? http.StatusOK)
          then log_Printf "Failed to delete origin pool: %s, Status Code: %d"
                          [AStr (http.Status resp); AInt (http.StatusCode resp)]
          else log_Println "Successfully deleted origin pool"
      end
  end.

(** The event handlers registered by [watchServices].  The informer hands
    them an [interface{}]; each one starts at most one goroutine, whose run
    is the result. *)
Inductive Obj := ObjService (service : corev1.Service) | ObjOther.

Definition AddFunc (w : World) (clientset : Clientset) (obj : Obj) : option (M unit) :=
  match obj with
  | ObjService service =>
      if String.eqb (corev1.Spec_Type service) corev1.ServiceTypeNodePort
      then Some (manageOriginPool w clientset service) else None
  | ObjOther => None
  end.

Definition UpdateFunc (w : World) (clientset : Clientset) (oldObj newObj : Obj)
  : option (M unit) :=
  match oldObj, newObj with
  | ObjService _, ObjService newService =>
      if String.eqb (corev1.Spec_Type newService) corev1.ServiceTypeNodePort
      then Some (manageOriginPool w clientset newService) else None
  | _, _ => None
  end.

Definition DeleteFunc (w : World) (obj : Obj) : option (M unit) :=
  match obj with
  | ObjService service =>
      if String.eqb (corev1.Spec_Type service) corev1.ServiceTypeNodePort
      then Some (deleteOriginPool w service) else None
  | ObjOther => None
  end.

End Program.

(** ** What the paths have in common

    [createOriginPool] and [updateOriginPool] repeat one another's text; the
    definitions below name the repeated parts, for use in the statements. *)

Section Shapes.
Context {U : UnicodeTables}.

(** The collection of origin pools, and the pool of a canonical name. *)
Definition originPoolsURL (w : World) : string :=
  api_domain w +:+ "/api/config/namespaces/" +:+ xc_namespace w +:+ "/origin_pools".

Definition originPoolURL (w : World) (formattedServiceName : string) : string :=
  api_domain w +:+ "/api/config/namespaces/" +:+ xc_namespace w
  +:+ "/origin_pools/" +:+ formattedServiceName.

(** The node port of the first declared port, when it is assigned. *)
Definition firstNodePort (service : corev1.Service) : option Z :=
  match corev1.Spec_Ports service with
  | port0 :: _ =>
      if negb (corev1.NodePort port0 =? 0) then Some (corev1.NodePort port0) else None
  | [] => None
  end.

(** The [originServers] and [payload] literals. *)
Definition originServer (w : World) (ip : string) : OriginServer :=
  {| OriginServer_PrivateIP :=
       {| IP := ip;
          PrivateIP_SiteLocator :=
            {| SiteLocator_Site :=
                 {| Site_Namespace := "system";
                    Site_Name := xc_sitename w;
                    Site_Kind := "site" |} |};
          InsideNetwork := Some [];
          OutsideNetwork := None |} |}.

Definition originPoolPayload (w : World) (service : corev1.Service)
    (nodeIPs : list string) (nodePort : Z) : OriginPool :=
  {| OriginPool_Metadata :=
       {| Name := formatServiceName (corev1.Name service);
          Description := "Created by OriginSync";
          Disable := false |};
     OriginPool_Spec :=
       {| OriginServers := map (originServer w) nodeIPs;
          NoTLS := Some [];
          Port := nodePort;
          SameAsEndpointPort := Some [];
          LoadbalancerAlgorithm := "LB_OVERRIDE";
          EndpointSelection := "LOCAL_PREFERRED" |} |}.

(** The request carrying a payload, with its two headers. *)
Definition payloadRequest (w : World) (method url : string) (payload : OriginPool)
  : http.Request :=
  {| http.Method := method;
     http.URL := url;
     http.Header := <["Authorization" := "APIToken " +:+ xc_token w]>
                      (<["Content-Type" := "application/json"]> ∅);
     http.Body := Some (json.Marshal_OriginPool payload) |}.

(** One path for both: resolve, check, build, send with [method] to [url]. *)
Definition pushOriginPool (w : World) (clientset : Clientset) (service : corev1.Service)
    (method url : string) : M unit :=
  let* (nodeIPs, err) := getNodeIPsForService clientset service in
  match err with
  | Some err => log_Printf "Error fetching node IPs: %v" [AErr err]
  | None =>
  if (length nodeIPs =? 0)%nat then
    log_Printf "No nodes found for service %s, skipping origin pool creation"
               [AStr (corev1.Name service)]
  else
  match firstNodePort service with
  | None =>
      log_Printf "No NodePort found for service %s, skipping origin pool creation"
                 [AStr (corev1.Name service)]
  | Some nodePort =>
  match url_Parse w url with
  | Some err => log_Printf "Error creating request: %v" [AErr err]
  | None =>
      let* r := Do_ w http.DefaultClient
                  (payloadRequest w method url
                     (originPoolPayload w service nodeIPs nodePort)) in
      match r with
      | inr err => log_Printf "Error sending request to API: %v" [AErr err]
      | inl resp =>
          if negb (http.StatusCode resp =? http.StatusOK)
          then log_Printf "Failed to create/update origin pool: %s" [AStr (http.Status resp)]
          else log_Println "Successfully created/updated origin pool"
      end
  end
  end
  end.

(** The requests of the existence check and of the delete path. *)
Definition existsRequest (w : World) (service : corev1.Service) : http.Request :=
  {| http.Method := "GET";
     http.URL := originPoolURL w (formatServiceName (corev1.Name service));
     http.Header := <["Authorization" := "APIToken " +:+ xc_token w]> ∅;
     http.Body := None |}.

Definition deleteRequest (w : World) (service : corev1.Service) : http.Request :=
  {| http.Method := "DELETE";
     http.URL := originPoolURL w (formatServiceName (corev1.Name service));
     http.Header := <["Authorization" := "APIToken " +:+ xc_token w]>
                      (<["Content-Type" := "application/json"]> ∅);
     http.Body :=
       Some (JObject [("fail_if_referred", JBool false);
                      ("name", JString (formatServiceName (corev1.Name service)));
                      ("namespace", JString (xc_namespace w))]) |}.

(** Node [n] resolves to the address [ip]: the node can be fetched and [ip]
    is its first internal address. *)
Definition owns (clientset : Clientset) (n ip : string) : Prop :=
  exists node, Nodes_Get clientset n = inl node
               /\ firstInternalIP (corev1.Status_Addresses node) = Some ip.

End Shapes.

(** ** Sample worlds *)

Module Sample.

(** Tables with nothing above Latin-1; names written in ASCII never
    consult them. *)
Definition tables : UnicodeTables :=
  {| Letter_excludingLatin := fun _ => false;
     Digit_excludingLatin := fun _ => false;
     To_LowerCase := fun r => r |}.

Definition env : gmap string string :=
  list_to_map [("API_DOMAIN", "https://api.example.com");
               ("XC_NAMESPACE", "prod");
               ("XC_TOKEN", "secret");
               ("XC_SITENAME", "site-a");
               ("XC_SITEINTERFACE", "Outside")].

(** A remote API that answers every request with the given status. *)
Definition world (code : Z) (status : string) : World :=
  {| environ := env;
     url_Parse := fun _ => None;
     client_Do := fun _ _ => inl {| http.StatusCode := code; http.Status := status |} |}.

Definition ok : World := world 200 "200 OK".
Definition missing : World := world 404 "404 Not Found".
Definition failing : World := world 500 "500 Internal Server Error".

Definition node (ip : string) : corev1.Node :=
  {| corev1.Status_Addresses :=
       [ {| corev1.Addr_Type := "Hostname"; corev1.Address := "host" |};
         {| corev1.Addr_Type := "InternalIP"; corev1.Address := ip |} ] |}.

(** Two pods on node A and one on node B. *)
Definition cluster : Clientset :=
  {| Pods_List := fun _ _ =>
       inl [ {| corev1.Pod_Name := "web-1"; corev1.Spec_NodeName := "A" |};
             {| corev1.Pod_Name := "web-2"; corev1.Spec_NodeName := "A" |};
             {| corev1.Pod_Name := "web-3"; corev1.Spec_NodeName := "B" |} ];
     Nodes_Get := fun name =>
       if String.eqb name "A" then inl (node "10.0.0.1")
       else if String.eqb name "B" then inl (node "10.0.0.2")
       else inr (LibError "node not found") |}.

(** A cluster in which no pod matches. *)
Definition idle_cluster : Clientset :=
  {| Pods_List := fun _ _ => inl [];
     Nodes_Get := fun _ => inr (LibError "node not found") |}.

Definition service (name : string) (ports : list corev1.ServicePort) : corev1.Service :=
  {| corev1.Name := name;
     corev1.Namespace := "default";
     corev1.Spec_Type := "NodePort";
     corev1.Spec_Selector := {[ "app" := "web" ]};
     corev1.Spec_Ports := ports |}.

Definition web : corev1.Service := service "web" [ {| corev1.NodePort := 30080 |} ].

Definition portless : corev1.Service := service "web" [].

End Sample.

(** ** The watch and the start-up: [watchServices], [getClientSet], [main] *)

(** What the informer hands to the registered handlers. *)
Inductive Notification :=
| Added (obj : Obj)
| Updated (oldObj newObj : Obj)
| Deleted (obj : Obj).

(** What the start-up consults besides the environment: the in-cluster
    configuration, the construction of the clientset, and the notifications
    the informer of a clientset delivers for a namespace ("" for all). *)
Record Boot := {
  rest_Config : Type;
  rest_InClusterConfig : rest_Config + error;
  kubernetes_NewForConfig : rest_Config -> Clientset + error;
  informer : Clientset -> string -> list Notification }.

(** How [main] ends: in [log.Fatal], or in the watch, which does not
    return; the goroutines started for the notifications delivered so far
    are then what the program does. *)
Inductive Outcome :=
| Fatal (format : string) (args : list Arg)
| Watching (goroutines : list (M unit)).

Section Startup.
Context {U : UnicodeTables}.

(** The handler the informer calls for a notification. *)
Definition handle (w : World) (clientset : Clientset) (n : Notification) : option (M unit) :=
  match n with
  | Added obj => AddFunc w clientset obj
  | Updated oldObj newObj => UpdateFunc w clientset oldObj newObj
  | Deleted obj => DeleteFunc w obj
  end.

Definition watchServices (w : World) (clientset : Clientset)
    (delivered : string -> list Notification) (namespace : string) : list (M unit) :=
  omap (handle w clientset) (delivered namespace).

(** [getClientSet]: the clientset, or the line of the [log.Fatalf] that
    ends the process. *)
Definition getClientSet (b : Boot) : Clientset + (string * list Arg) :=
  match rest_InClusterConfig b with
  | inr err => inr ("Error getting in-cluster config: %s", [AErr err])
  | inl config =>
      match kubernetes_NewForConfig b config with
      | inr err => inr ("Error building Kubernetes clientset: %s", [AErr err])
      | inl clientset => inl clientset
      end
  end.

Definition main (w : World) (b : Boot) : Outcome :=
  if String.eqb (xc_namespace w) "" || String.eqb (xc_token w) ""
     || String.eqb (api_domain w) "" || String.eqb (xc_sitename w) ""
  then Fatal "XC_NAMESPACE, XC_TOKEN, XC_SITENAME, and API_DOMAIN environment variables must be set" []
  else
    match getClientSet b with
    | inr (format, args) => Fatal format args
    | inl clientset =>
        Watching (watchServices w clientset (informer b clientset) (k8s_namespace w))
    end.

End Startup.

(** A notification that concerns a NodePort service: in an update, the new
    object is the one that counts, the old one need only be a service. *)
Definition qualifies (n : Notification) : bool :=
  match n with
  | Added (ObjService service) | Deleted (ObjService service)
  | Updated (ObjService _) (ObjService service) =>
      String.eqb (corev1.Spec_Type service) corev1.ServiceTypeNodePort
  | _ => false
  end.

(** The variables [main] requires. *)
Definition required : list string :=
  ["XC_NAMESPACE"; "XC_TOKEN"; "API_DOMAIN"; "XC_SITENAME"].

(** ** Closed forms of the resolver *)

(** The address a node contributes: its first internal address, when the
    node can be fetched. *)
Definition nodeIP (clientset : Clientset) (n : string) : option string :=
  match Nodes_Get clientset n with
  | inl node => firstInternalIP (corev1.Status_Addresses node)
  | inr _ => None
  end.

(** The names of [l] that are not in [seen], each at its first appearance. *)
Fixpoint fresh_nodes (seen : gset string) (l : list string) : list string :=
  match l with
  | [] => []
  | n :: rest =>
      if decide (n ∈ seen) then fresh_nodes seen rest
      else n :: fresh_nodes ({[n]} ∪ seen) rest
  end.

(** The line logged for a pod whose node cannot be fetched. *)
Definition node_error (clientset : Clientset) (pod : corev1.Pod) : option Event :=
  match Nodes_Get clientset (corev1.Spec_NodeName pod) with
  | inr err =>
      Some (Log "Error fetching node %s for pod %s: %v"
                [AStr (corev1.Spec_NodeName pod); AStr (corev1.Pod_Name pod); AErr err])
  | inl _ => None
  end.

(** ** The ends of the paths *)

Definition is_Log (e : Event) : bool :=
  match e with Log _ _ => true | Do _ _ => false end.

Section Ends.
Context {U : UnicodeTables}.

(** What [createOriginPool] and [updateOriginPool] do once resolution has
    returned [(nodeIPs, err)]. *)
Definition pushEnd (w : World) (service : corev1.Service) (method url : string)
    (nodeIPs : list string) (err : option error) : list Event :=
  match err with
  | Some err => [Log "Error fetching node IPs: %v" [AErr err]]
  | None =>
  match nodeIPs with
  | [] => [Log "No nodes found for service %s, skipping origin pool creation"
               [AStr (corev1.Name service)]]
  | _ :: _ =>
  match firstNodePort service with
  | None => [Log "No NodePort found for service %s, skipping origin pool creation"
                 [AStr (corev1.Name service)]]
  | Some nodePort =>
  match url_Parse w url with
  | Some err => [Log "Error creating request: %v" [AErr err]]
  | None =>
      let req := payloadRequest w method url (originPoolPayload w service nodeIPs nodePort) in
      [Do http.DefaultClient req;
       match client_Do w http.DefaultClient req with
       | inr err => Log "Error sending request to API: %v" [AErr err]
       | inl resp =>
           if http.StatusCode resp =? http.StatusOK
           then Log "Successfully created/updated origin pool" []
           else Log "Failed to create/update origin pool: %s" [AStr (http.Status resp)]
       end]
  end
  end
  end
  end.

End Ends.

(** ** The canonicalizer on ASCII names, in closed form *)

(** What the last loop keeps of a lowered [formattedName]: the lower-case
    letters, digits and hyphens, except a hyphen in the last position. *)
Fixpoint kept (t : string) : string :=
  match t with
  | EmptyString => EmptyString
  | String c t' =>
      match t' with
      | EmptyString =>
          if good_byte c && negb (is_hyphen c) then String c EmptyString else EmptyString
      | String _ _ => if good_byte c then String c (kept t') else kept t'
      end
  end.

(** The first two steps, dots to hyphens and lower case, on one byte. *)
Definition lower_dot (c : ascii) : ascii := lower_byte (if Ascii.eqb c "." then "-" else c).

(** An ASCII letter, of either case. *)
Definition is_letter_byte (c : ascii) : bool := is_lower c || is_upper_byte c.

(** ** More sample worlds *)

Module Demo.

(** Pods on nodes B, A, C, B, D, A and C: node C cannot be fetched and node D
    has no internal address. *)
Definition pods : list corev1.Pod :=
  [ {| corev1.Pod_Name := "p1"; corev1.Spec_NodeName := "B" |};
    {| corev1.Pod_Name := "p2"; corev1.Spec_NodeName := "A" |};
    {| corev1.Pod_Name := "p3"; corev1.Spec_NodeName := "C" |};
    {| corev1.Pod_Name := "p4"; corev1.Spec_NodeName := "B" |};
    {| corev1.Pod_Name := "p5"; corev1.Spec_NodeName := "D" |};
    {| corev1.Pod_Name := "p6"; corev1.Spec_NodeName := "A" |};
    {| corev1.Pod_Name := "p7"; corev1.Spec_NodeName := "C" |} ].

Definition cluster : Clientset :=
  {| Pods_List := fun _ _ => inl pods;
     Nodes_Get := fun name =>
       if String.eqb name "A" then inl (Sample.node "10.0.0.1")
       else if String.eqb name "B" then inl (Sample.node "10.0.0.2")
       else if String.eqb name "D" then
         inl {| corev1.Status_Addresses :=
                  [ {| corev1.Addr_Type := "ExternalIP"; corev1.Address := "192.0.2.4" |} ] |}
       else inr (LibError "node not found") |}.

(** A cluster whose pods cannot be listed. *)
Definition unreachable : Clientset :=
  {| Pods_List := fun _ _ => inr (LibError "connection refused");
     Nodes_Get := fun _ => inr (LibError "connection refused") |}.


(** The first test of [net/url]'s parser, [stringContainsCTLByte]: a URL
    holding a byte below 0x20, or 0x7F, is refused. *)
Definition stringContainsCTLByte (s : string) : bool :=
  negb (all_bytes (fun c => negb ((byte_val c <? 0x20) || (byte_val c =? 0x7F))) s).

(** A world whose API_DOMAIN ends with a line feed, as a value read from a
    file does: every URL built from it is refused by the parser. *)
Definition malformed : World :=
  {| environ := <["API_DOMAIN" := "https://api.example.com" +:+ String "010" ""]> Sample.env;
     url_Parse := fun url =>
       if stringContainsCTLByte url
       then Some (LibError "net/url: invalid control character in URL")
       else None;
     client_Do := fun _ _ => inl {| http.StatusCode := 200; http.Status := "200 OK" |} |}.

(** A world without XC_TOKEN. *)
Definition tokenless : World :=
  {| environ := delete "XC_TOKEN" Sample.env;
     url_Parse := fun _ => None;
     client_Do := fun _ _ => inl {| http.StatusCode := 200; http.Status := "200 OK" |} |}.

Definition clusterIP (name : string) : corev1.Service :=
  {| corev1.Name := name;
     corev1.Namespace := "default";
     corev1.Spec_Type := "ClusterIP";
     corev1.Spec_Selector := {[ "app" := "web" ]};
     corev1.Spec_Ports := [] |}.

(** The sample service as a LoadBalancer with a second port. *)
Definition balancer : corev1.Service :=
  {| corev1.Name := "web";
     corev1.Namespace := "default";
     corev1.Spec_Type := "LoadBalancer";
     corev1.Spec_Selector := {[ "app" := "web" ]};
     corev1.Spec_Ports := [ {| corev1.NodePort := 30080 |};
                            {| corev1.NodePort := 30443 |} ] |}.

(** A service that has the name of the sample service and nothing else in
    common with it. *)
Definition namesake : corev1.Service :=
  {| corev1.Name := "web";
     corev1.Namespace := "staging";
     corev1.Spec_Type := "ClusterIP";
     corev1.Spec_Selector := {[ "tier" := "cache" ]};
     corev1.Spec_Ports := [ {| corev1.NodePort := 0 |} ] |}.

(** A start-up in the sample cluster, whose informer delivers: the sample
    service added, an internal service added, the sample service updated
    into an internal one, and the sample service deleted. *)
Definition boot : Boot :=
  {| rest_Config := unit;
     rest_InClusterConfig := inl tt;
     kubernetes_NewForConfig := fun _ => inl Sample.cluster;
     informer := fun _ _ =>
       [ Added (ObjService Sample.web);
         Added (ObjService (clusterIP "db"));
         Updated (ObjService Sample.web) (ObjService (clusterIP "web"));
         Deleted (ObjService Sample.web) ] |}.

End Demo.

(** * Properties *)

(** ** The canonicalizer *)

Section CanonicalizerProperties.
Context {U : UnicodeTables}.

(** The two examples of the specification. *)
Example formatServiceName_dotted : formatServiceName "My.Service.Name." = "my-service-name".
Proof. vm_compute. reflexivity. Qed.

Example formatServiceName_leading_digits : formatServiceName "123-abc" = "abc".
Proof. vm_compute. reflexivity. Qed.

(** C2.  The output is specified to match [^[a-z]([a-z0-9-]*[a-z0-9])?$] or
    be empty.  On ["a--"] the code returns ["a-"], which ends with a hyphen:
    the trim at the last index removes one hyphen only. *)
Theorem formatServiceName_trailing_hyphen :
  formatServiceName "a--" = "a-" /\ canonical_name (formatServiceName "a--") = false.
Proof. split; vm_compute; reflexivity. Qed.

(** C3.  Applying the canonicalizer twice is specified to equal applying it
    once.  On ["a--"] the first pass returns ["a-"] and the second ["a"]. *)
Theorem formatServiceName_second_pass :
  formatServiceName "a--" = "a-"
  /\ formatServiceName (formatServiceName "a--") = "a"
  /\ String.eqb (formatServiceName (formatServiceName "a--")) (formatServiceName "a--")
     = false.
Proof.
  assert (H1 : formatServiceName "a--" = "a-") by (vm_compute; reflexivity).
  assert (H2 : formatServiceName "a-" = "a") by (vm_compute; reflexivity).
  rewrite H1, H2. repeat split.
Qed.

(** C10.  The canonicalizer is not injective: ["My.Service"] and
    ["my-service"] are distinct and have the same canonical name, so two
    services with these names address the same remote origin pool, in the
    existence check and in the delete call alike. *)
Theorem formatServiceName_not_injective :
  String.eqb "My.Service" "my-service" = false
  /\ formatServiceName "My.Service" = formatServiceName "my-service"
  /\ forall w ns ty sel ports,
       let s1 := {| corev1.Name := "My.Service"; corev1.Namespace := ns;
                    corev1.Spec_Type := ty; corev1.Spec_Selector := sel;
                    corev1.Spec_Ports := ports |} in
       let s2 := {| corev1.Name := "my-service"; corev1.Namespace := ns;
                    corev1.Spec_Type := ty; corev1.Spec_Selector := sel;
                    corev1.Spec_Ports := ports |} in
       checkOriginPoolExists w s1 = checkOriginPoolExists w s2
       /\ deleteOriginPool w s1 = deleteOriginPool w s2.
Proof.
  assert (H : formatServiceName "My.Service" = formatServiceName "my-service")
    by (vm_compute; reflexivity).
  split; [reflexivity|]. split; [exact H|].
  intros w ns ty sel ports s1 s2. unfold checkOriginPoolExists, deleteOriginPool.
  subst s1 s2. cbn [corev1.Name]. rewrite H. split; reflexivity.
Qed.

(** *** The canonicalizer on ASCII names *)

Ltac by_bytes c :=
  destruct c as [[] [] [] [] [] [] [] []]; intros; try discriminate; repeat split; reflexivity.

Lemma byte_of_val c : byte_of (byte_val c) = c.
Proof. by_bytes c. Qed.

Lemma string_of_rune_byte c :
  (byte_val c <? 0x80) = true -> string_of_rune (byte_val c) = String c EmptyString.
Proof. by_bytes c. Qed.

Lemma DecodeRune_ascii c t :
  (byte_val c <? 0x80) = true -> DecodeRuneInString (String c t) = (byte_val c, 1%nat).
Proof. by_bytes c. Qed.

(** On a lower-cased ASCII byte the test of the loop is [good_byte]. *)
Lemma keep_ascii c :
  (byte_val c <? 0x80) = true -> is_upper_byte c = false ->
  unicode_IsLetter (byte_val c) || unicode_IsDigit (byte_val c) || (byte_val c =? 0x2D)
  = good_byte c.
Proof. by_bytes c. Qed.

Lemma letter_ascii c :
  (byte_val c <? 0x80) = true -> is_upper_byte c = false ->
  unicode_IsLetter (byte_val c) = is_lower c.
Proof. by_bytes c. Qed.

Lemma lower_byte_ascii c :
  (byte_val c <? 0x80) = true ->
  (byte_val (lower_byte c) <? 0x80) = true /\ is_upper_byte (lower_byte c) = false.
Proof. by_bytes c. Qed.

Lemma good_byte_ascii c :
  good_byte c = true ->
  (byte_val c <? 0x80) = true /\ is_upper_byte c = false /\ Ascii.eqb c "." = false.
Proof. by_bytes c. Qed.

Lemma lower_not_hyphen c : is_lower c = true -> (byte_val c =? 0x2D) = false.
Proof. by_bytes c. Qed.

Lemma range_string_ascii t : forall i,
  is_ascii t = true -> range_from i 0 t = indexed i t.
Proof.
  induction t as [|c t IH]; intros i Hascii; [reflexivity|].
  apply andb_prop in Hascii as [Hc Ht].
  cbn [range_from indexed]. rewrite (DecodeRune_ascii c t Hc). cbn [Nat.pred].
  by rewrite IH.
Qed.

(** Strings: append and the slice that drops the last byte. *)
Lemma append_cons x (a b : string) : String x a +:+ b = String x (a +:+ b).
Proof. reflexivity. Qed.

Lemma append_assoc (a b c : string) : (a +:+ b) +:+ c = a +:+ (b +:+ c).
Proof. induction a as [|x a IH]; [reflexivity|]. rewrite !append_cons. by f_equal. Qed.

Lemma append_nil_r (a : string) : a +:+ EmptyString = a.
Proof. induction a as [|x a IH]; [reflexivity|]. rewrite append_cons. by f_equal. Qed.

Lemma all_bytes_append p (a b : string) :
  all_bytes p (a +:+ b) = all_bytes p a && all_bytes p b.
Proof.
  induction a as [|x a IH]; [reflexivity|].
  rewrite append_cons. cbn [all_bytes]. rewrite IH. apply andb_assoc.
Qed.

Lemma length_append_byte (a : string) c :
  String.length (a +:+ String c EmptyString) = S (String.length a).
Proof.
  induction a as [|x a IH]; [reflexivity|].
  rewrite append_cons. cbn [String.length]. by f_equal.
Qed.

Lemma substring_prefix (a b : string) : substring 0 (String.length a) (a +:+ b) = a.
Proof.
  induction a as [|x a IH]; [by destruct b|].
  rewrite append_cons. cbn [String.length substring]. by f_equal.
Qed.

Lemma slice_to_last (a : string) c :
  slice_to (a +:+ String c EmptyString) (len (a +:+ String c EmptyString) - 1) = a.
Proof.
  unfold slice_to, len. rewrite length_append_byte.
  replace (Z.to_nat (Z.of_nat (S (String.length a)) - 1)) with (String.length a) by lia.
  apply substring_prefix.
Qed.

Lemma map_bytes_id f (s : string) :
  all_bytes (fun c => Ascii.eqb (f c) c) s = true -> map_bytes f s = s.
Proof.
  induction s as [|c s IH]; cbn; [reflexivity|].
  intros [Hc Hs]%andb_prop. apply Ascii.eqb_eq in Hc. by rewrite Hc, IH.
Qed.

Lemma all_bytes_impl (p q : ascii -> bool) (s : string) :
  (forall c, p c = true -> q c = true) -> all_bytes p s = true -> all_bytes q s = true.
Proof.
  intros Hpq. induction s as [|c s IH]; cbn; [reflexivity|].
  intros [Hc Hs]%andb_prop. by rewrite (Hpq c Hc), IH.
Qed.

Lemma is_ascii_replace (s : string) old new :
  (byte_val new <? 0x80) = true ->
  is_ascii s = true -> is_ascii (strings_ReplaceAll1 s old new) = true.
Proof.
  intros Hnew. unfold is_ascii, strings_ReplaceAll1.
  induction s as [|c s IH]; cbn; [reflexivity|].
  intros [Hc Hs]%andb_prop. rewrite (IH Hs), andb_true_r.
  by destruct (Ascii.eqb c old).
Qed.

Lemma strings_ToLower_ascii (s : string) :
  is_ascii s = true -> strings_ToLower s = map_bytes lower_byte s.
Proof.
  intros Hascii. unfold strings_ToLower. unfold is_ascii in Hascii. rewrite Hascii.
  destruct (all_bytes (fun c => negb (is_upper_byte c)) s) eqn:Hup; [|reflexivity].
  symmetry. apply map_bytes_id. revert Hup. apply all_bytes_impl.
  intros c Hc. unfold lower_byte. destruct (is_upper_byte c); [discriminate|].
  apply Ascii.eqb_refl.
Qed.

Lemma lowered_map_lower (s : string) :
  is_ascii s = true -> lowered (map_bytes lower_byte s) = true.
Proof.
  unfold is_ascii, lowered. induction s as [|c s IH]; cbn; [reflexivity|].
  intros [Hc Hs]%andb_prop. destruct (lower_byte_ascii c Hc) as [H1 H2].
  by rewrite H1, H2, IH.
Qed.

Lemma lowered_strip (s : string) :
  lowered s = true ->
  lowered (strip_leading s) = true
  /\ (strip_leading s = EmptyString
      \/ exists c t, strip_leading s = String c t /\ is_lower c = true).
Proof.
  unfold lowered. induction s as [|c s IH]; cbn [strip_leading]; [by auto|].
  intros Hall. pose proof Hall as [Hc Hs]%andb_prop.
  apply andb_prop in Hc as [Hc Hup%negb_true_iff].
  rewrite (letter_ascii c Hc Hup). destruct (is_lower c) eqn:Hlow; [|by apply IH].
  split; [exact Hall|]. right. by exists c, s.
Qed.

(** One iteration on a lowered byte appends at most that byte, and only
    when it is a lower-case letter, a digit or a hyphen. *)
Lemma keep_step_lowered T temp i c :
  (byte_val c <? 0x80) = true -> is_upper_byte c = false ->
  exists x, keep_step T temp (i, byte_val c) = temp +:+ x
            /\ all_bytes good_byte x = true.
Proof.
  intros Hc Hup. unfold keep_step.
  rewrite (keep_ascii c Hc Hup), (string_of_rune_byte c Hc).
  destruct (good_byte c) eqn:Hgood.
  - destruct ((i =? len T - 1) && (byte_val c =? 0x2D)).
    + rewrite slice_to_last. exists EmptyString. by rewrite append_nil_r.
    + exists (String c EmptyString). cbn [all_bytes]. by rewrite Hgood.
  - assert ((byte_val c =? 0x2D) = false) as ->.
    { unfold good_byte, is_hyphen in Hgood. by apply orb_false_elim in Hgood as [_ ?]. }
    rewrite andb_false_r. exists EmptyString. by rewrite append_nil_r.
Qed.

Lemma fold_keep_lowered T (t : string) : forall i acc,
  lowered t = true ->
  exists suffix, fold_left (keep_step T) (indexed i t) acc = acc +:+ suffix
                 /\ all_bytes good_byte suffix = true.
Proof.
  induction t as [|c t IH]; intros i acc Hlow.
  - exists EmptyString. by rewrite append_nil_r.
  - unfold lowered in Hlow. cbn [all_bytes] in Hlow.
    apply andb_prop in Hlow as [[Hc Hup%negb_true_iff]%andb_prop Ht].
    cbn [indexed fold_left].
    destruct (keep_step_lowered T acc i c Hc Hup) as (x & -> & Hx).
    destruct (IH (i + 1) (acc +:+ x) Ht) as (suffix & -> & Hsuffix).
    exists (x +:+ suffix). split; [apply append_assoc|].
    by rewrite all_bytes_append, Hx, Hsuffix.
Qed.

(** On ASCII input two of the three specified properties hold: the output
    consists of lower-case letters, digits and hyphens, and it is empty or
    begins with a letter. *)
Theorem formatServiceName_ascii (s : string) :
  is_ascii s = true ->
  all_bytes good_byte (formatServiceName s) = true
  /\ (formatServiceName s = EmptyString
      \/ exists c t, formatServiceName s = String c t /\ is_lower c = true).
Proof.
  intros Hascii. unfold formatServiceName.
  assert (H1 : is_ascii (strings_ReplaceAll1 s "." "-") = true)
    by (by apply is_ascii_replace).
  rewrite (strings_ToLower_ascii _ H1).
  pose proof (lowered_map_lower _ H1) as H2.
  destruct (lowered_strip _ H2) as [H3 Hhead].
  set (T := strip_leading _) in *.
  assert (H4 : is_ascii T = true).
  { revert H3. apply all_bytes_impl. by intros c [? _]%andb_prop. }
  unfold range_string. rewrite (range_string_ascii T 0 H4).
  destruct Hhead as [HT|(c & t & HT & Hc)].
  - rewrite HT. by auto.
  - destruct (good_byte_ascii c) as (Hc7 & Hup & _);
      [unfold good_byte; by rewrite Hc|].
    assert (Hfirst : keep_step T EmptyString (0, byte_val c) = String c EmptyString).
    { unfold keep_step.
      rewrite (keep_ascii c Hc7 Hup), (string_of_rune_byte c Hc7), (lower_not_hyphen c Hc).
      unfold good_byte. rewrite Hc, andb_false_r. reflexivity. }
    assert (Ht : lowered t = true).
    { unfold lowered in H3. rewrite HT in H3. cbn [all_bytes] in H3.
      by apply andb_prop in H3 as [_ ?]. }
    assert (exists suffix,
               fold_left (keep_step T) (indexed 0 T) EmptyString = String c suffix
               /\ all_bytes good_byte suffix = true) as (suffix & -> & Hsuffix).
    { replace (indexed 0 T) with ((0, byte_val c) :: indexed (0 + 1) t)
        by (by rewrite HT).
      cbn [fold_left]. rewrite Hfirst.
      destruct (fold_keep_lowered T t (0 + 1) (String c EmptyString) Ht)
        as (suffix & -> & Hsuffix).
      by exists suffix. }
    split.
    + cbn [all_bytes]. unfold good_byte at 1. by rewrite Hc, Hsuffix.
    + right. by exists c, suffix.
Qed.

(** A byte that is kept and not trimmed is appended. *)
Lemma keep_step_good T temp i c :
  good_byte c = true -> (i =? len T - 1) && is_hyphen c = false ->
  keep_step T temp (i, byte_val c) = temp +:+ String c EmptyString.
Proof.
  intros Hc Htrim. destruct (good_byte_ascii c Hc) as (Hc7 & Hup & _).
  unfold keep_step. rewrite (keep_ascii c Hc7 Hup), (string_of_rune_byte c Hc7), Hc.
  unfold is_hyphen in Htrim. by rewrite Htrim.
Qed.

Lemma indexed_cons i c (t : string) :
  indexed i (String c t) = (i, byte_val c) :: indexed (i + 1) t.
Proof. reflexivity. Qed.

Lemma fold_keep_canonical T (t : string) : forall c i acc,
  good_byte c = true -> all_bytes good_byte t = true ->
  is_hyphen (last_byte c t) = false ->
  len T = i + 1 + len t ->
  fold_left (keep_step T) (indexed i (String c t)) acc = acc +:+ String c t.
Proof.
  induction t as [|c' t IH]; intros c i acc Hc Ht Hlast Hlen;
    rewrite indexed_cons; cbn [fold_left].
  - cbn [last_byte] in Hlast. rewrite keep_step_good; [reflexivity|exact Hc|].
    by rewrite Hlast, andb_false_r.
  - cbn [all_bytes last_byte] in *. apply andb_prop in Ht as [Hc' Ht].
    rewrite keep_step_good; [|exact Hc|].
    + rewrite (IH c' (i + 1) _ Hc' Ht Hlast).
      * by rewrite append_assoc.
      * unfold len in *. cbn [String.length] in Hlen. lia.
    + assert ((i =? len T - 1) = false) as ->; [|reflexivity].
      apply Z.eqb_neq. unfold len in *. cbn [String.length] in Hlen. lia.
Qed.

(** A name that already has the specified shape, as the names of
    Kubernetes services do, is kept as it is; on such names the
    canonicalizer is idempotent. *)
Theorem formatServiceName_canonical (s : string) :
  canonical_name s = true -> formatServiceName s = s.
Proof.
  destruct s as [|c t]; [reflexivity|].
  cbn [canonical_name]. intros [[Hc Ht]%andb_prop Hlast%negb_true_iff]%andb_prop.
  assert (Hgood : all_bytes good_byte (String c t) = true).
  { cbn [all_bytes]. unfold good_byte at 1. by rewrite Hc, Ht. }
  assert (H1 : strings_ReplaceAll1 (String c t) "." "-" = String c t).
  { apply map_bytes_id. revert Hgood. apply all_bytes_impl.
    intros b Hb. destruct (good_byte_ascii b Hb) as (_ & _ & ->). apply Ascii.eqb_refl. }
  assert (H2 : is_ascii (String c t) = true).
  { revert Hgood. apply all_bytes_impl. intros b Hb. by destruct (good_byte_ascii b Hb). }
  assert (H3 : map_bytes lower_byte (String c t) = String c t).
  { apply map_bytes_id. revert Hgood. apply all_bytes_impl.
    intros b Hb. destruct (good_byte_ascii b Hb) as (_ & Hup & _).
    unfold lower_byte. rewrite Hup. apply Ascii.eqb_refl. }
  assert (H4 : strip_leading (String c t) = String c t).
  { destruct (good_byte_ascii c) as (Hc7 & Hup & _); [unfold good_byte; by rewrite Hc|].
    cbn [strip_leading]. by rewrite (letter_ascii c Hc7 Hup), Hc. }
  unfold formatServiceName. rewrite H1, (strings_ToLower_ascii _ H2), H3, H4.
  unfold range_string. rewrite (range_string_ascii _ 0 H2).
  rewrite (fold_keep_canonical (String c t) t c 0 EmptyString); try done.
  - unfold good_byte. by rewrite Hc.
  - unfold len. cbn [String.length]. lia.
Qed.

Corollary formatServiceName_canonical_idempotent (s : string) :
  canonical_name (formatServiceName s) = true ->
  formatServiceName (formatServiceName s) = formatServiceName s.
Proof. apply formatServiceName_canonical. Qed.

(** On ASCII input the second pass changes nothing unless the first one
    has left a hyphen at the end. *)
Corollary formatServiceName_ascii_idempotent (s : string) :
  is_ascii s = true ->
  ends_with_hyphen (formatServiceName s) = false ->
  formatServiceName (formatServiceName s) = formatServiceName s.
Proof.
  intros Hascii Hend. apply formatServiceName_canonical.
  destruct (formatServiceName_ascii s Hascii) as [Hgood [->|(c & t & Hs & Hc)]];
    [reflexivity|].
  rewrite Hs in *. cbn [canonical_name all_bytes ends_with_hyphen] in *.
  apply andb_prop in Hgood as [_ Ht]. by rewrite Hc, Ht, Hend.
Qed.

End CanonicalizerProperties.

(** ** The endpoint resolver *)

Section ResolverProperties.

Lemma requests_app (t1 t2 : list Event) : requests (t1 ++ t2) = requests t1 ++ requests t2.
Proof. unfold requests. apply omap_app. Qed.

(** The loop invariant: [nodeNames] holds exactly the nodes that have
    contributed, each one once, and [nodeIPs] holds their addresses in the
    same order. *)
Lemma forPods_invariant (clientset : Clientset) (items : list corev1.Pod) :
  forall (nodeIPs0 : list string) (nodeNames0 : gmap string bool) (nodes0 : list string)
         t nodeIPs nodeNames,
    dom nodeNames0 = list_to_set nodes0 ->
    NoDup nodes0 ->
    Forall2 (owns clientset) nodes0 nodeIPs0 ->
    forPods clientset items nodeIPs0 nodeNames0 = (t, (nodeIPs, nodeNames)) ->
    exists nodes,
      dom nodeNames = list_to_set nodes
      /\ NoDup nodes
      /\ Forall2 (owns clientset) nodes nodeIPs
      /\ (forall n, n ∈ nodes -> n ∈ nodes0 \/ n ∈ corev1.Spec_NodeName <$> items)
      /\ (forall n, n ∈ nodes0 -> n ∈ nodes)
      /\ (forall n, n ∈ corev1.Spec_NodeName <$> items ->
                    (exists ip, owns clientset n ip) -> n ∈ nodes)
      /\ requests t = [].
Proof.
  induction items as [|pod rest IH];
    intros nodeIPs0 nodeNames0 nodes0 t nodeIPs nodeNames Hdom Hnd Hown.
  - cbn. intros [= <- <- <-]. exists nodes0.
    repeat split; auto. intros n Hn. inversion Hn.
  - cbn [forPods]. destruct (nodeNames0 !! corev1.Spec_NodeName pod) as [b|] eqn:Hseen.
    + (* the node has contributed already *)
      intros Hrun.
      destruct (IH _ _ nodes0 _ _ _ Hdom Hnd Hown Hrun)
        as (nodes & D & N & F & Hsub & Hkeep & Hall & Hreq).
      exists nodes. repeat split; auto.
      * intros n Hn. destruct (Hsub n Hn); [left|right]; auto.
        rewrite fmap_cons. apply elem_of_cons. by right.
      * intros n Hn Hres. rewrite fmap_cons in Hn.
        apply elem_of_cons in Hn as [->|Hn]; [|by apply Hall].
        apply Hkeep. assert (corev1.Spec_NodeName pod ∈ dom nodeNames0) as Hin
          by (apply elem_of_dom; eauto).
        rewrite Hdom in Hin. by apply elem_of_list_to_set in Hin.
    + assert (corev1.Spec_NodeName pod ∉ nodes0) as Hfresh.
      { intros Hin. apply (elem_of_list_to_set (C := gset string)) in Hin.
        rewrite <- Hdom in Hin. apply elem_of_dom in Hin as [? Hin]. congruence. }
      destruct (Nodes_Get clientset (corev1.Spec_NodeName pod)) as [node|err] eqn:Hget.
      * destruct (firstInternalIP (corev1.Status_Addresses node)) as [address|] eqn:Haddr.
        -- (* a new node with an internal address: one address is appended *)
           intros Hrun.
           assert (Hstep : exists nodes,
                      dom nodeNames = list_to_set nodes
                      /\ NoDup nodes
                      /\ Forall2 (owns clientset) nodes nodeIPs
                      /\ (forall n, n ∈ nodes ->
                            n ∈ nodes0 ++ [corev1.Spec_NodeName pod]
                            \/ n ∈ corev1.Spec_NodeName <$> rest)
                      /\ (forall n, n ∈ nodes0 ++ [corev1.Spec_NodeName pod] -> n ∈ nodes)
                      /\ (forall n, n ∈ corev1.Spec_NodeName <$> rest ->
                            (exists ip, owns clientset n ip) -> n ∈ nodes)
                      /\ requests t = []);
             [ eapply IH; [| | |exact Hrun]
             | destruct Hstep as (nodes & D & N & F & Hsub & Hkeep & Hall & Hreq) ].
           { rewrite dom_insert_L, Hdom, list_to_set_app_L. cbn [list_to_set foldr].
             rewrite (right_id_L ∅ (∪)). apply (comm_L (∪)). }
           { apply NoDup_app. split; [done|]. split; [|apply NoDup_singleton].
             intros x Hx Hx'. apply list_elem_of_singleton in Hx' as ->. done. }
           { apply Forall2_app; [done|]. constructor; [|constructor].
             exists node. done. }
           exists nodes. repeat split; auto.
           ++ intros n Hn. destruct (Hsub n Hn) as [Hn'|Hn'].
              ** apply elem_of_app in Hn' as [Hn'|Hn']; [by left|right].
                 apply list_elem_of_singleton in Hn' as ->. rewrite fmap_cons.
                 apply elem_of_cons. by left.
              ** right. rewrite fmap_cons. apply elem_of_cons. by right.
           ++ intros n Hn. apply Hkeep, elem_of_app. by left.
           ++ intros n Hn Hres. rewrite fmap_cons in Hn.
              apply elem_of_cons in Hn as [->|Hn]; [|by apply Hall].
              apply Hkeep, elem_of_app. right. by apply list_elem_of_singleton.
        -- (* a node without internal address contributes nothing *)
           intros Hrun.
           destruct (IH _ _ nodes0 _ _ _ Hdom Hnd Hown Hrun)
             as (nodes & D & N & F & Hsub & Hkeep & Hall & Hreq).
           exists nodes. repeat split; auto.
           ++ intros n Hn. destruct (Hsub n Hn); [left|right]; auto.
              rewrite fmap_cons. apply elem_of_cons. by right.
           ++ intros n Hn Hres. rewrite fmap_cons in Hn.
              apply elem_of_cons in Hn as [->|Hn]; [|by apply Hall].
              destruct Hres as (ip & node' & Hget' & Haddr'). congruence.
      * (* the node cannot be fetched: logged and skipped *)
        unfold bind, log_Printf.
        destruct (forPods clientset rest nodeIPs0 nodeNames0) as [t' [ips' names']] eqn:Hrest.
        intros [= <- <- <-].
        destruct (IH _ _ nodes0 _ _ _ Hdom Hnd Hown Hrest)
          as (nodes & D & N & F & Hsub & Hkeep & Hall & Hreq).
        exists nodes. repeat split; auto.
        -- intros n Hn. destruct (Hsub n Hn); [left|right]; auto.
           rewrite fmap_cons. apply elem_of_cons. by right.
        -- intros n Hn Hres. rewrite fmap_cons in Hn.
           apply elem_of_cons in Hn as [->|Hn]; [|by apply Hall].
           destruct Hres as (ip & node' & Hget' & Haddr'). congruence.
Qed.

(** Resolution sends nothing to the remote API. *)
Lemma getNodeIPsForService_requests clientset service :
  requests (trace (getNodeIPsForService clientset service)) = [].
Proof.
  unfold getNodeIPsForService.
  destruct (Pods_List clientset _ _) as [items|err]; [|reflexivity].
  unfold bind. destruct (forPods clientset items [] ∅) as [t [ips names]] eqn:Hrun.
  destruct (forPods_invariant clientset items [] ∅ [] t ips names)
    as (nodes & _ & _ & _ & _ & _ & _ & Hreq); auto using NoDup_nil_2.
  cbn. by rewrite app_nil_r.
Qed.

(** C7.  When the pods of a service can be listed, resolution succeeds and
    its addresses are those of pairwise distinct nodes hosting these pods,
    one address per node: the first internal address of that node.  Every
    node that hosts a pod and resolves to an address is among them.  So
    when every pod's node resolves, there are exactly as many addresses as
    distinct nodes: two for pods on nodes A, A and B. *)
Theorem getNodeIPsForService_dedup clientset service items :
  Pods_List clientset (corev1.Namespace service) (corev1.Spec_Selector service) = inl items ->
  exists t nodeIPs nodes,
    getNodeIPsForService clientset service = (t, (nodeIPs, None))
    /\ NoDup nodes
    /\ Forall2 (owns clientset) nodes nodeIPs
    /\ (forall n, n ∈ nodes -> n ∈ corev1.Spec_NodeName <$> items)
    /\ (forall n, n ∈ corev1.Spec_NodeName <$> items ->
                  (exists ip, owns clientset n ip) -> n ∈ nodes)
    /\ ((forall pod, pod ∈ items -> exists ip, owns clientset (corev1.Spec_NodeName pod) ip) ->
        length nodeIPs
        = size (list_to_set (corev1.Spec_NodeName <$> items) : gset string)).
Proof.
  intros Hlist. unfold getNodeIPsForService. rewrite Hlist. unfold bind.
  destruct (forPods clientset items [] ∅) as [t [ips names]] eqn:Hrun.
  destruct (forPods_invariant clientset items [] ∅ [] t ips names)
    as (nodes & _ & Hnd & Hown & Hsub & _ & Hall & _); auto using NoDup_nil_2.
  exists (t ++ []), ips, nodes. repeat split; auto.
  - intros n Hn. destruct (Hsub n Hn) as [Hn'|Hn']; [inversion Hn'|done].
  - intros Hres. rewrite <- (Forall2_length _ _ _ Hown).
    rewrite <- (size_list_to_set (C := gset string) nodes Hnd). f_equal.
    apply set_eq. intros n. rewrite !elem_of_list_to_set. split.
    { intros Hn. destruct (Hsub n Hn) as [Hn'|Hn']; [inversion Hn'|done]. }
    intros Hn. apply Hall; [done|].
    apply list_elem_of_fmap in Hn as (pod & -> & Hpod). by apply Hres.
Qed.

(** On the sample cluster, with pods on nodes A, A and B, resolution yields
    two addresses. *)
Lemma getNodeIPsForService_dedup_sample :
  exists t nodeIPs,
    getNodeIPsForService Sample.cluster Sample.web = (t, (nodeIPs, None))
    /\ length nodeIPs = 2%nat.
Proof.
  destruct (getNodeIPsForService_dedup Sample.cluster Sample.web
              [ {| corev1.Pod_Name := "web-1"; corev1.Spec_NodeName := "A" |};
                {| corev1.Pod_Name := "web-2"; corev1.Spec_NodeName := "A" |};
                {| corev1.Pod_Name := "web-3"; corev1.Spec_NodeName := "B" |} ]
              eq_refl)
    as (t & ips & nodes & Hrun & _ & _ & _ & _ & Hlen).
  exists t, ips. split; [exact Hrun|]. rewrite Hlen.
  - vm_compute. reflexivity.
  - intros pod Hpod. repeat (apply elem_of_cons in Hpod as [->|Hpod]);
      [exists "10.0.0.1"|exists "10.0.0.1"|exists "10.0.0.2"|inversion Hpod];
      eexists; split; reflexivity.
Defined.

End ResolverProperties.

(** ** The reconciler *)

Section ReconcilerProperties.
Context {U : UnicodeTables}.

(** Both paths are [pushOriginPool], at their method and URL. *)
Lemma createOriginPool_push w clientset service :
  createOriginPool w clientset service
  = pushOriginPool w clientset service "POST" (originPoolsURL w).
Proof.
  unfold createOriginPool, pushOriginPool, firstNodePort, http_NewRequest.
  destruct (getNodeIPsForService clientset service) as [t [ips [err|]]]; [reflexivity|].
  unfold bind. destruct (length ips =? 0)%nat; [reflexivity|].
  destruct (corev1.Spec_Ports service) as [|port0 ?]; [reflexivity|].
  destruct (negb (corev1.NodePort port0 =? 0)); [|reflexivity].
  destruct (url_Parse w _); reflexivity.
Qed.

Lemma updateOriginPool_push w clientset service :
  updateOriginPool w clientset service
  = pushOriginPool w clientset service "PUT"
      (originPoolURL w (formatServiceName (corev1.Name service))).
Proof.
  unfold updateOriginPool, pushOriginPool, firstNodePort, http_NewRequest.
  destruct (getNodeIPsForService clientset service) as [t [ips [err|]]]; [reflexivity|].
  unfold bind. destruct (length ips =? 0)%nat; [reflexivity|].
  destruct (corev1.Spec_Ports service) as [|port0 ?]; [reflexivity|].
  destruct (negb (corev1.NodePort port0 =? 0)); [|reflexivity].
  destruct (url_Parse w _); reflexivity.
Qed.

(** A run of the common path sends at most one request; when it does,
    resolution has returned addresses, the service has a node port, the URL
    parses, and the request carries the payload built from them. *)
Lemma pushOriginPool_requests w clientset service method url :
  requests (trace (pushOriginPool w clientset service method url)) = []
  \/ exists t nodeIPs nodePort,
       getNodeIPsForService clientset service = (t, (nodeIPs, None))
       /\ nodeIPs <> []
       /\ firstNodePort service = Some nodePort
       /\ url_Parse w url = None
       /\ requests (trace (pushOriginPool w clientset service method url))
          = [payloadRequest w method url (originPoolPayload w service nodeIPs nodePort)].
Proof.
  pose proof (getNodeIPsForService_requests clientset service) as Hres.
  unfold pushOriginPool.
  destruct (getNodeIPsForService clientset service) as [t [ips err]] eqn:Hrun.
  unfold trace in *. cbn [fst] in Hres. unfold bind.
  destruct err as [err|].
  { left. cbn. rewrite requests_app, Hres. reflexivity. }
  destruct ips as [|ip ips].
  { left. cbn. rewrite requests_app, Hres. reflexivity. }
  cbn [length Nat.eqb].
  destruct (firstNodePort service) as [nodePort|] eqn:Hport.
  2:{ left. cbn. rewrite requests_app, Hres. reflexivity. }
  destruct (url_Parse w url) as [err|] eqn:Hurl.
  { left. cbn. rewrite requests_app, Hres. reflexivity. }
  right. exists t, (ip :: ips), nodePort. repeat split; try done.
  unfold Do_.
  destruct (client_Do w http.DefaultClient _) as [resp|err];
    [destruct (negb (http.StatusCode resp =? http.StatusOK))|];
    cbn [fst log_Printf log_Println]; rewrite requests_app, Hres; reflexivity.
Qed.

(** The common path with no address resolved. *)
Lemma pushOriginPool_no_nodes w clientset service method url t :
  getNodeIPsForService clientset service = (t, ([], None)) ->
  pushOriginPool w clientset service method url
  = (t ++ [Log "No nodes found for service %s, skipping origin pool creation"
               [AStr (corev1.Name service)]], tt).
Proof. intros Hrun. unfold pushOriginPool. rewrite Hrun. reflexivity. Qed.

(** The common path with addresses but no node port. *)
Lemma pushOriginPool_no_port w clientset service method url t nodeIPs :
  getNodeIPsForService clientset service = (t, (nodeIPs, None)) ->
  nodeIPs <> [] ->
  firstNodePort service = None ->
  pushOriginPool w clientset service method url
  = (t ++ [Log "No NodePort found for service %s, skipping origin pool creation"
               [AStr (corev1.Name service)]], tt).
Proof.
  intros Hrun Hne Hport. unfold pushOriginPool. rewrite Hrun, Hport.
  destruct nodeIPs; [done|reflexivity].
Qed.

(** Without a node port the common path sends nothing. *)
Lemma pushOriginPool_no_port_requests w clientset service method url :
  firstNodePort service = None ->
  requests (trace (pushOriginPool w clientset service method url)) = [].
Proof.
  intros Hport.
  destruct (pushOriginPool_requests w clientset service method url)
    as [H|(t & ips & port & _ & _ & Hsome & _)]; [exact H|congruence].
Qed.

(** The existence check: one GET when the URL parses, none otherwise. *)
Lemma checkOriginPoolExists_run w service :
  checkOriginPoolExists w service
  = match url_Parse w (originPoolURL w (formatServiceName (corev1.Name service))) with
    | Some err => ([], (false, Some (Errorf_v "error creating request: %v" [] err)))
    | None =>
        ([Do {| http.Timeout := 10 |} (existsRequest w service)],
         match client_Do w {| http.Timeout := 10 |} (existsRequest w service) with
         | inr err => (false, Some (Errorf_v "error sending request to API: %v" [] err))
         | inl resp =>
             if http.StatusCode resp =? http.StatusOK then (true, None)
             else if http.StatusCode resp =? http.StatusNotFound then (false, None)
             else (false, Some (Errorf "unexpected HTTP status: %s" [http.Status resp]))
         end)
    end.
Proof.
  unfold checkOriginPoolExists, http_NewRequest, originPoolURL.
  destruct (url_Parse w _); [reflexivity|].
  unfold bind, Do_, existsRequest, originPoolURL. cbn [http.Header_Set].
  destruct (client_Do w _ _) as [resp|err]; [|reflexivity].
  destruct (http.StatusCode resp =? http.StatusOK); [reflexivity|].
  destruct (http.StatusCode resp =? http.StatusNotFound); reflexivity.
Qed.

(** C1, as amended.  When endpoint resolution succeeds with zero node
    addresses, the create path and the update path log "No nodes found for
    service ..., skipping origin pool creation" and return: no payload is
    built and no request is sent, whatever the ports of the service. *)
Theorem zero_endpoints_skip w clientset service t :
  getNodeIPsForService clientset service = (t, ([], None)) ->
  createOriginPool w clientset service
  = (t ++ [Log "No nodes found for service %s, skipping origin pool creation"
               [AStr (corev1.Name service)]], tt)
  /\ updateOriginPool w clientset service
     = (t ++ [Log "No nodes found for service %s, skipping origin pool creation"
                  [AStr (corev1.Name service)]], tt)
  /\ requests (trace (createOriginPool w clientset service)) = []
  /\ requests (trace (updateOriginPool w clientset service)) = [].
Proof.
  intros Hrun.
  pose proof (getNodeIPsForService_requests clientset service) as Hres.
  rewrite Hrun in Hres. cbn [trace fst] in Hres.
  rewrite createOriginPool_push, updateOriginPool_push.
  rewrite !(pushOriginPool_no_nodes _ _ _ _ _ t Hrun).
  cbn [trace fst]. rewrite requests_app, Hres. repeat split.
Qed.

(** The common path when resolution fails. *)
Lemma pushOriginPool_no_resolution w clientset service method url t nodeIPs err :
  getNodeIPsForService clientset service = (t, (nodeIPs, Some err)) ->
  pushOriginPool w clientset service method url
  = (t ++ [Log "Error fetching node IPs: %v" [AErr err]], tt).
Proof. intros Hrun. unfold pushOriginPool. rewrite Hrun. reflexivity. Qed.

(** C5, as amended.  For a service with no declared port, or whose first
    declared port has no node port, the create path and the update path
    send no request; the only request of the whole reconciliation is the
    existence check that precedes them.  What they log follows the
    resolution, which comes first: when it has returned at least one
    address, they log "No NodePort found for service ..., skipping origin
    pool creation" and return; when it has returned no address, they have
    returned with "No nodes found for service ..., skipping origin pool
    creation" instead; and when it has failed, with "Error fetching node
    IPs: ..." and its error.  In each case that line ends the path. *)
Theorem no_NodePort_aborts w clientset service :
  (corev1.Spec_Ports service = []
   \/ exists port0 ports, corev1.Spec_Ports service = port0 :: ports
                          /\ corev1.NodePort port0 = 0) ->
  requests (trace (createOriginPool w clientset service)) = []
  /\ requests (trace (updateOriginPool w clientset service)) = []
  /\ (forall req, req ∈ requests (trace (manageOriginPool w clientset service)) ->
                  req = existsRequest w service)
  /\ (forall t nodeIPs,
        getNodeIPsForService clientset service = (t, (nodeIPs, None)) ->
        nodeIPs <> [] ->
        createOriginPool w clientset service
        = (t ++ [Log "No NodePort found for service %s, skipping origin pool creation"
                     [AStr (corev1.Name service)]], tt)
        /\ updateOriginPool w clientset service
           = (t ++ [Log "No NodePort found for service %s, skipping origin pool creation"
                        [AStr (corev1.Name service)]], tt))
  /\ (forall t,
        getNodeIPsForService clientset service = (t, ([], None)) ->
        createOriginPool w clientset service
        = (t ++ [Log "No nodes found for service %s, skipping origin pool creation"
                     [AStr (corev1.Name service)]], tt)
        /\ updateOriginPool w clientset service
           = (t ++ [Log "No nodes found for service %s, skipping origin pool creation"
                        [AStr (corev1.Name service)]], tt))
  /\ (forall t nodeIPs err,
        getNodeIPsForService clientset service = (t, (nodeIPs, Some err)) ->
        createOriginPool w clientset service
        = (t ++ [Log "Error fetching node IPs: %v" [AErr err]], tt)
        /\ updateOriginPool w clientset service
           = (t ++ [Log "Error fetching node IPs: %v" [AErr err]], tt)).
Proof.
  intros Hports.
  assert (Hport : firstNodePort service = None).
  { unfold firstNodePort. destruct Hports as [->|(port0 & ports & -> & ->)]; reflexivity. }
  assert (Hc : requests (trace (createOriginPool w clientset service)) = [])
    by (rewrite createOriginPool_push; by apply pushOriginPool_no_port_requests).
  assert (Hu : requests (trace (updateOriginPool w clientset service)) = [])
    by (rewrite updateOriginPool_push; by apply pushOriginPool_no_port_requests).
  split; [exact Hc|]. split; [exact Hu|]. split; [|split; [|split]].
  - intros req. unfold manageOriginPool. rewrite checkOriginPoolExists_run.
    destruct (url_Parse w _) as [err|].
    { cbn. intros Hin. inversion Hin. }
    unfold bind.
    destruct (client_Do w _ _) as [resp|err].
    + destruct (http.StatusCode resp =? http.StatusOK).
      * destruct (updateOriginPool w clientset service) as [tu []].
        cbn [trace fst] in *. unfold requests in *. cbn. rewrite Hu.
        intros Hin. by apply list_elem_of_singleton in Hin.
      * destruct (http.StatusCode resp =? http.StatusNotFound).
        -- destruct (createOriginPool w clientset service) as [tc []].
           cbn [trace fst] in *. unfold requests in *. cbn. rewrite Hc.
           intros Hin. by apply list_elem_of_singleton in Hin.
        -- cbn. intros Hin. by apply list_elem_of_singleton in Hin.
    + cbn. intros Hin. by apply list_elem_of_singleton in Hin.
  - intros t nodeIPs Hrun Hne.
    rewrite createOriginPool_push, updateOriginPool_push.
    by rewrite !(pushOriginPool_no_port _ _ _ _ _ t nodeIPs Hrun Hne Hport).
  - intros t Hrun. rewrite createOriginPool_push, updateOriginPool_push.
    by rewrite !(pushOriginPool_no_nodes _ _ _ _ _ t Hrun).
  - intros t nodeIPs err Hrun. rewrite createOriginPool_push, updateOriginPool_push.
    by rewrite !(pushOriginPool_no_resolution _ _ _ _ _ t nodeIPs err Hrun).
Qed.

(** C6.  An add or update event on a NodePort service starts
    [manageOriginPool], which routes on the answer to the existence check:
    on 404 it runs the create path, on 200 the update path, and on any
    other status it logs the error and stops, with the existence check as
    its only request. *)
Theorem manageOriginPool_routes w clientset service resp :
  corev1.Spec_Type service = corev1.ServiceTypeNodePort ->
  url_Parse w (originPoolURL w (formatServiceName (corev1.Name service))) = None ->
  client_Do w {| http.Timeout := 10 |} (existsRequest w service) = inl resp ->
  AddFunc w clientset (ObjService service) = Some (manageOriginPool w clientset service)
  /\ (forall oldService,
        UpdateFunc w clientset (ObjService oldService) (ObjService service)
        = Some (manageOriginPool w clientset service))
  /\ (http.StatusCode resp = http.StatusNotFound ->
      manageOriginPool w clientset service
      = (Do {| http.Timeout := 10 |} (existsRequest w service)
           :: Log "Creating new origin pool: %s" [AStr (corev1.Name service)]
           :: trace (createOriginPool w clientset service), tt))
  /\ (http.StatusCode resp = http.StatusOK ->
      manageOriginPool w clientset service
      = (Do {| http.Timeout := 10 |} (existsRequest w service)
           :: Log "Origin pool already exists, updating: %s" [AStr (corev1.Name service)]
           :: trace (updateOriginPool w clientset service), tt))
  /\ (http.StatusCode resp <> http.StatusOK ->
      http.StatusCode resp <> http.StatusNotFound ->
      manageOriginPool w clientset service
      = ([Do {| http.Timeout := 10 |} (existsRequest w service);
          Log "Error checking if origin pool exists: %v"
              [AErr (Errorf "unexpected HTTP status: %s" [http.Status resp])]], tt)
      /\ requests (trace (manageOriginPool w clientset service)) = [existsRequest w service]).
Proof.
  intros Hty Hurl Hdo.
  assert (Hq : String.eqb (corev1.Spec_Type service) corev1.ServiceTypeNodePort = true)
    by (by apply String.eqb_eq).
  split; [cbn [AddFunc]; by rewrite Hq|].
  split; [intros old; cbn [UpdateFunc]; by rewrite Hq|].
  unfold manageOriginPool. rewrite checkOriginPoolExists_run, Hurl, Hdo. unfold bind.
  split; [|split].
  - intros Hcode. rewrite Hcode. cbn [Z.eqb http.StatusOK http.StatusNotFound Pos.eqb].
    by destruct (createOriginPool w clientset service) as [tc []].
  - intros Hcode. rewrite Hcode. cbn [Z.eqb http.StatusOK http.StatusNotFound Pos.eqb].
    by destruct (updateOriginPool w clientset service) as [tu []].
  - intros H200 H404.
    apply Z.eqb_neq in H200, H404. rewrite H200, H404. split; reflexivity.
Qed.

(** When the existence check gets no answer, nothing else is attempted. *)
Lemma manageOriginPool_check_fails w clientset service :
  url_Parse w (originPoolURL w (formatServiceName (corev1.Name service))) <> None
  \/ (exists err, client_Do w {| http.Timeout := 10 |} (existsRequest w service) = inr err) ->
  exists err,
    (trace (manageOriginPool w clientset service)
     = [Log "Error checking if origin pool exists: %v" [AErr err]]
     \/ trace (manageOriginPool w clientset service)
        = [Do {| http.Timeout := 10 |} (existsRequest w service);
           Log "Error checking if origin pool exists: %v" [AErr err]]).
Proof.
  unfold manageOriginPool. rewrite checkOriginPoolExists_run.
  destruct (url_Parse w _) as [perr|].
  { intros _. eexists. left. reflexivity. }
  intros [Hurl|(err & ->)]; [done|]. eexists. right. reflexivity.
Qed.

(** C8, as amended.  A delete event on a NodePort service starts
    [deleteOriginPool], which makes no existence check and sends at most
    one request.  When the URL of the pool, built from API_DOMAIN,
    XC_NAMESPACE and the canonical name, is well-formed, it sends exactly
    one: a DELETE addressed at the canonical name of the service, whose
    body carries [fail_if_referred] set to false.  When [http.NewRequest]
    refuses the URL, it logs "Error creating DELETE request: ..." and
    returns without sending anything. *)
Theorem deleteOriginPool_single_call w service :
  corev1.Spec_Type service = corev1.ServiceTypeNodePort ->
  DeleteFunc w (ObjService service) = Some (deleteOriginPool w service)
  /\ (url_Parse w (originPoolURL w (formatServiceName (corev1.Name service))) = None ->
      requests (trace (deleteOriginPool w service)) = [deleteRequest w service])
  /\ (forall err,
        url_Parse w (originPoolURL w (formatServiceName (corev1.Name service))) = Some err ->
        deleteOriginPool w service
        = ([Log "Error creating DELETE request: %v" [AErr err]], tt)
        /\ requests (trace (deleteOriginPool w service)) = [])
  /\ (forall req, req ∈ requests (trace (deleteOriginPool w service)) ->
                  req = deleteRequest w service)
  /\ (length (requests (trace (deleteOriginPool w service))) <= 1)%nat
  /\ http.Method (deleteRequest w service) = "DELETE"
  /\ http.URL (deleteRequest w service)
     = api_domain w +:+ "/api/config/namespaces/" +:+ xc_namespace w
       +:+ "/origin_pools/" +:+ formatServiceName (corev1.Name service)
  /\ exists rest,
       http.Body (deleteRequest w service)
       = Some (JObject (("fail_if_referred", JBool false) :: rest)).
Proof.
  intros Hty.
  assert (Hq : String.eqb (corev1.Spec_Type service) corev1.ServiceTypeNodePort = true)
    by (by apply String.eqb_eq).
  split; [cbn [DeleteFunc]; by rewrite Hq|].
  assert (Hsent : url_Parse w (originPoolURL w (formatServiceName (corev1.Name service))) = None ->
                  requests (trace (deleteOriginPool w service)) = [deleteRequest w service]).
  { intros Hurl. unfold deleteOriginPool, http_NewRequest.
    change (url_Parse w _)
      with (url_Parse w (originPoolURL w (formatServiceName (corev1.Name service)))).
    rewrite Hurl. unfold bind, Do_.
    destruct (client_Do w _ _) as [resp|err];
      [destruct (negb (http.StatusCode resp =? http.StatusOK))|]; reflexivity. }
  assert (Hrefused : forall err,
             url_Parse w (originPoolURL w (formatServiceName (corev1.Name service))) = Some err ->
             deleteOriginPool w service
             = ([Log "Error creating DELETE request: %v" [AErr err]], tt)).
  { intros err Hurl. unfold deleteOriginPool, http_NewRequest.
    change (url_Parse w _)
      with (url_Parse w (originPoolURL w (formatServiceName (corev1.Name service)))).
    by rewrite Hurl. }
  split; [exact Hsent|].
  split; [intros err Hurl; by rewrite (Hrefused err Hurl)|].
  split; [|split; [|repeat split; eexists; reflexivity]].
  - destruct (url_Parse w (originPoolURL w (formatServiceName (corev1.Name service))))
      as [err|] eqn:Hurl.
    + rewrite (Hrefused err eq_refl). intros req Hin. inversion Hin.
    + rewrite (Hsent eq_refl). by intros req ->%list_elem_of_singleton.
  - destruct (url_Parse w (originPoolURL w (formatServiceName (corev1.Name service))))
      as [err|] eqn:Hurl.
    + rewrite (Hrefused err eq_refl). cbn. lia.
    + rewrite (Hsent eq_refl). cbn. lia.
Qed.

(** C9.  The create path and the update path are one computation, run with
    POST on the collection and with PUT on the pool of the canonical name.
    The requests they send for a service in a cluster carry the same
    payload, built from the same addresses and port, and the same headers:
    they differ in method and URL only. *)
Theorem create_update_same_payload w clientset service :
  createOriginPool w clientset service
  = pushOriginPool w clientset service "POST" (originPoolsURL w)
  /\ updateOriginPool w clientset service
     = pushOriginPool w clientset service "PUT"
         (originPoolURL w (formatServiceName (corev1.Name service)))
  /\ forall reqC reqU,
       reqC ∈ requests (trace (createOriginPool w clientset service)) ->
       reqU ∈ requests (trace (updateOriginPool w clientset service)) ->
       exists nodeIPs nodePort,
         reqC = payloadRequest w "POST" (originPoolsURL w)
                  (originPoolPayload w service nodeIPs nodePort)
         /\ reqU = payloadRequest w "PUT"
                     (originPoolURL w (formatServiceName (corev1.Name service)))
                     (originPoolPayload w service nodeIPs nodePort)
         /\ http.Body reqC = http.Body reqU
         /\ http.Header reqC = http.Header reqU.
Proof.
  split; [apply createOriginPool_push|]. split; [apply updateOriginPool_push|].
  intros reqC reqU. rewrite createOriginPool_push, updateOriginPool_push.
  destruct (pushOriginPool_requests w clientset service "POST" (originPoolsURL w))
    as [->|(t & ips & port & Hrun & _ & Hport & _ & ->)]; [intros Hin; inversion Hin|].
  destruct (pushOriginPool_requests w clientset service "PUT"
              (originPoolURL w (formatServiceName (corev1.Name service))))
    as [->|(t' & ips' & port' & Hrun' & _ & Hport' & _ & ->)]; [intros _ Hin; inversion Hin|].
  intros ->%list_elem_of_singleton ->%list_elem_of_singleton.
  assert (ips' = ips) as -> by congruence. assert (port' = port) as -> by congruence.
  exists ips, port. repeat split.
Qed.

(** The value of XC_SITEINTERFACE has no effect on either path. *)
Lemma os_Getenv_setenv_ne w key value key' :
  key <> key' -> os_Getenv (setenv key value w) key' = os_Getenv w key'.
Proof. intros Hne. unfold os_Getenv, setenv. cbn [environ]. by rewrite lookup_insert_ne. Qed.

Lemma pushOriginPool_ignores_siteinterface w clientset service method url side :
  pushOriginPool (setenv "XC_SITEINTERFACE" side w) clientset service method url
  = pushOriginPool w clientset service method url.
Proof.
  unfold pushOriginPool, payloadRequest, originPoolPayload, originServer, Do_,
    xc_sitename, xc_token.
  cbn [setenv url_Parse client_Do]. by rewrite !os_Getenv_setenv_ne.
Qed.

Lemma createOriginPool_ignores_siteinterface w clientset service side :
  createOriginPool (setenv "XC_SITEINTERFACE" side w) clientset service
  = createOriginPool w clientset service.
Proof.
  rewrite !createOriginPool_push, pushOriginPool_ignores_siteinterface.
  unfold originPoolsURL, api_domain, xc_namespace. by rewrite !os_Getenv_setenv_ne.
Qed.

Lemma updateOriginPool_ignores_siteinterface w clientset service side :
  updateOriginPool (setenv "XC_SITEINTERFACE" side w) clientset service
  = updateOriginPool w clientset service.
Proof.
  rewrite !updateOriginPool_push, pushOriginPool_ignores_siteinterface.
  unfold originPoolURL, api_domain, xc_namespace. by rewrite !os_Getenv_setenv_ne.
Qed.

(** C4.  The backend entries are specified to carry the network side
    configured in XC_SITEINTERFACE.  With that variable set to "Outside",
    every backend entry of every request of the create and update paths is
    still tagged inside: [inside_network] is an empty object and
    [outside_network] is null.  (By the lemmas above the variable has no
    effect on these paths at all.) *)
Theorem origin_servers_tagged_inside w clientset service req :
  xc_siteinterface w = "Outside" ->
  req ∈ requests (trace (createOriginPool w clientset service))
  \/ req ∈ requests (trace (updateOriginPool w clientset service)) ->
  exists payload,
    http.Body req = Some (json.Marshal_OriginPool payload)
    /\ OriginServers (OriginPool_Spec payload) <> []
    /\ Forall (fun server =>
                 InsideNetwork (OriginServer_PrivateIP server) = Some []
                 /\ OutsideNetwork (OriginServer_PrivateIP server) = None
                 /\ exists ip site,
                      json.of_OriginServer server
                      = JObject [("private_ip",
                                  JObject [("ip", ip); ("site_locator", site);
                                           ("inside_network", JObject []);
                                           ("outside_network", JNull)])])
              (OriginServers (OriginPool_Spec payload)).
Proof.
  intros _ Hin. rewrite createOriginPool_push, updateOriginPool_push in Hin.
  assert (exists method url ips port,
             ips <> [] /\ req = payloadRequest w method url (originPoolPayload w service ips port))
    as (method & url & ips & port & Hne & ->).
  { destruct Hin as [Hin|Hin];
      [destruct (pushOriginPool_requests w clientset service "POST" (originPoolsURL w))
         as [Hno|(t & ips & port & _ & Hne & _ & _ & Hreq)]
      |destruct (pushOriginPool_requests w clientset service "PUT"
                   (originPoolURL w (formatServiceName (corev1.Name service))))
         as [Hno|(t & ips & port & _ & Hne & _ & _ & Hreq)]];
      try (rewrite Hno in Hin; inversion Hin);
      rewrite Hreq in Hin; apply list_elem_of_singleton in Hin; eauto 8. }
  exists (originPoolPayload w service ips port). split; [reflexivity|]. split.
  - cbn. by destruct ips.
  - cbn [originPoolPayload OriginPool_Spec OriginServers].
    apply Forall_forall. intros server Hserver.
    apply list_elem_of_In, in_map_iff in Hserver as (ip & <- & _).
    repeat split. eexists _, _. reflexivity.
Qed.

End ReconcilerProperties.

(** ** Runs on the sample worlds *)

Section SampleRuns.

(** C1, as stated, fails: the sample service has a node port and no pod
    matches it, so that resolution succeeds with zero addresses, and
    neither path sends a request, in any world. *)
Lemma zero_endpoints_not_submitted :
  getNodeIPsForService Sample.idle_cluster Sample.web = ([], ([], None))
  /\ firstNodePort Sample.web = Some 30080
  /\ forall (U : UnicodeTables) (w : World),
       requests (trace (@createOriginPool U w Sample.idle_cluster Sample.web)) = []
       /\ requests (trace (@updateOriginPool U w Sample.idle_cluster Sample.web)) = [].
Proof.
  split; [reflexivity|]. split; [reflexivity|].
  intros U w. rewrite createOriginPool_push, updateOriginPool_push.
  rewrite !(pushOriginPool_no_nodes w Sample.idle_cluster Sample.web _ _ [] eq_refl).
  split; reflexivity.
Qed.

Lemma zero_endpoints_skip_sample :
  getNodeIPsForService Sample.idle_cluster Sample.web = ([], ([], None))
  /\ @createOriginPool Sample.tables Sample.ok Sample.idle_cluster Sample.web
     = ([Log "No nodes found for service %s, skipping origin pool creation" [AStr "web"]], tt)
  /\ requests (trace (@updateOriginPool Sample.tables Sample.ok Sample.idle_cluster Sample.web)) = [].
Proof.
  split; [reflexivity|].
  destruct (@zero_endpoints_skip Sample.tables Sample.ok Sample.idle_cluster Sample.web [] eq_refl)
    as (Hc & _ & _ & Hu).
  split; [exact Hc|exact Hu].
Defined.

(** C5, as stated, fails: the sample service without ports, in a cluster
    where no pod matches it, is turned away with the "No nodes found" line;
    the node-port precondition is not reached and its failure not logged.
    And a request is made for the event: the existence check. *)
Lemma no_NodePort_log_preempted :
  corev1.Spec_Ports Sample.portless = []
  /\ (forall (U : UnicodeTables) (w : World),
        trace (@createOriginPool U w Sample.idle_cluster Sample.portless)
        = [Log "No nodes found for service %s, skipping origin pool creation" [AStr "web"]]
        /\ trace (@updateOriginPool U w Sample.idle_cluster Sample.portless)
           = [Log "No nodes found for service %s, skipping origin pool creation" [AStr "web"]])
  /\ forall U : UnicodeTables,
       requests (trace (@manageOriginPool U Sample.missing Sample.cluster Sample.portless))
       = [@existsRequest U Sample.missing Sample.portless].
Proof.
  split; [reflexivity|]. split.
  - intros U w. rewrite createOriginPool_push, updateOriginPool_push.
    rewrite !(pushOriginPool_no_nodes w Sample.idle_cluster Sample.portless _ _ [] eq_refl).
    split; reflexivity.
  - intros U. unfold manageOriginPool. rewrite checkOriginPoolExists_run.
    rewrite createOriginPool_push.
    rewrite (pushOriginPool_no_port Sample.missing Sample.cluster Sample.portless
               "POST" (originPoolsURL Sample.missing)
               [] ["10.0.0.1"; "10.0.0.2"] eq_refl); [reflexivity|discriminate|reflexivity].
Qed.

(** The sample service without ports: with pods on two nodes, without a
    matching pod, and in a cluster whose pods cannot be listed. *)
Lemma no_NodePort_aborts_sample :
  corev1.Spec_Ports Sample.portless = []
  /\ requests (trace (@createOriginPool Sample.tables Sample.missing Sample.cluster Sample.portless)) = []
  /\ @createOriginPool Sample.tables Sample.missing Sample.cluster Sample.portless
     = ([Log "No NodePort found for service %s, skipping origin pool creation" [AStr "web"]], tt)
  /\ @updateOriginPool Sample.tables Sample.ok Sample.idle_cluster Sample.portless
     = ([Log "No nodes found for service %s, skipping origin pool creation" [AStr "web"]], tt)
  /\ @createOriginPool Sample.tables Sample.missing Demo.unreachable Sample.portless
     = ([Log "Error fetching node IPs: %v"
             [AErr (Errorf_v "error fetching pods for service %s: %v" ["web"]
                             (LibError "connection refused"))]], tt).
Proof.
  split; [reflexivity|].
  destruct (@no_NodePort_aborts Sample.tables Sample.missing Sample.cluster Sample.portless
              (or_introl eq_refl)) as (Hc & _ & _ & Hlog & _ & _).
  split; [exact Hc|]. split.
  { destruct (Hlog [] ["10.0.0.1"; "10.0.0.2"] eq_refl) as [Hc' _]; [discriminate|exact Hc']. }
  split.
  - destruct (@no_NodePort_aborts Sample.tables Sample.ok Sample.idle_cluster Sample.portless
                (or_introl eq_refl)) as (_ & _ & _ & _ & Hnone & _).
    exact (proj2 (Hnone [] eq_refl)).
  - destruct (@no_NodePort_aborts Sample.tables Sample.missing Demo.unreachable Sample.portless
                (or_introl eq_refl)) as (_ & _ & _ & _ & _ & Hfail).
    exact (proj1 (Hfail [] [] _ eq_refl)).
Defined.

(** The three routes, on a remote API answering 404, 200 and 500. *)
Lemma manageOriginPool_routes_sample :
  @manageOriginPool Sample.tables Sample.missing Sample.cluster Sample.web
  = (Do {| http.Timeout := 10 |} (@existsRequest Sample.tables Sample.missing Sample.web)
       :: Log "Creating new origin pool: %s" [AStr "web"]
       :: trace (@createOriginPool Sample.tables Sample.missing Sample.cluster Sample.web), tt)
  /\ @manageOriginPool Sample.tables Sample.ok Sample.cluster Sample.web
     = (Do {| http.Timeout := 10 |} (@existsRequest Sample.tables Sample.ok Sample.web)
          :: Log "Origin pool already exists, updating: %s" [AStr "web"]
          :: trace (@updateOriginPool Sample.tables Sample.ok Sample.cluster Sample.web), tt)
  /\ requests (trace (@manageOriginPool Sample.tables Sample.failing Sample.cluster Sample.web))
     = [@existsRequest Sample.tables Sample.failing Sample.web].
Proof.
  split; [|split].
  - destruct (@manageOriginPool_routes Sample.tables Sample.missing Sample.cluster Sample.web
                {| http.StatusCode := 404; http.Status := "404 Not Found" |}
                eq_refl eq_refl eq_refl) as (_ & _ & H & _ & _).
    exact (H eq_refl).
  - destruct (@manageOriginPool_routes Sample.tables Sample.ok Sample.cluster Sample.web
                {| http.StatusCode := 200; http.Status := "200 OK" |}
                eq_refl eq_refl eq_refl) as (_ & _ & _ & H & _).
    exact (H eq_refl).
  - destruct (@manageOriginPool_routes Sample.tables Sample.failing Sample.cluster Sample.web
                {| http.StatusCode := 500; http.Status := "500 Internal Server Error" |}
                eq_refl eq_refl eq_refl) as (_ & _ & _ & _ & H).
    destruct H as [_ H]; [discriminate|discriminate|exact H].
Defined.

(** C8, as stated, fails: with an API_DOMAIN that ends with a line feed the
    URL of the pool is refused by [http.NewRequest], and the delete event
    on the sample NodePort service, for which [DeleteFunc] starts
    [deleteOriginPool], logs the error and sends no request at all. *)
Lemma delete_event_without_call :
  corev1.Spec_Type Sample.web = corev1.ServiceTypeNodePort
  /\ forall U : UnicodeTables,
       @DeleteFunc U Demo.malformed (ObjService Sample.web)
       = Some (@deleteOriginPool U Demo.malformed Sample.web)
       /\ @deleteOriginPool U Demo.malformed Sample.web
          = ([Log "Error creating DELETE request: %v"
                  [AErr (LibError "net/url: invalid control character in URL")]], tt)
       /\ requests (trace (@deleteOriginPool U Demo.malformed Sample.web)) = [].
Proof.
  split; [reflexivity|]. intros U. repeat split.
Qed.

Lemma deleteOriginPool_single_call_sample :
  requests (trace (@deleteOriginPool Sample.tables Sample.ok Sample.web))
  = [ {| http.Method := "DELETE";
         http.URL := "https://api.example.com/api/config/namespaces/prod/origin_pools/web";
         http.Header := <["Authorization" := "APIToken secret"]>
                          (<["Content-Type" := "application/json"]> ∅);
         http.Body := Some (JObject [("fail_if_referred", JBool false);
                                     ("name", JString "web");
                                     ("namespace", JString "prod")]) |} ]
  /\ requests (trace (@deleteOriginPool Sample.tables Demo.malformed Sample.web)) = [].
Proof.
  destruct (@deleteOriginPool_single_call Sample.tables Sample.ok Sample.web eq_refl)
    as (_ & Hsent & _).
  destruct (@deleteOriginPool_single_call Sample.tables Demo.malformed Sample.web eq_refl)
    as (_ & _ & Hrefused & _).
  split; [exact (Hsent eq_refl)|].
  exact (proj2 (Hrefused (LibError "net/url: invalid control character in URL") eq_refl)).
Defined.

Lemma create_update_same_payload_sample :
  exists reqC reqU,
    requests (trace (@createOriginPool Sample.tables Sample.ok Sample.cluster Sample.web)) = [reqC]
    /\ requests (trace (@updateOriginPool Sample.tables Sample.ok Sample.cluster Sample.web)) = [reqU]
    /\ http.Body reqC = http.Body reqU
    /\ http.Header reqC = http.Header reqU
    /\ http.Method reqC = "POST" /\ http.Method reqU = "PUT"
    /\ http.URL reqC = "https://api.example.com/api/config/namespaces/prod/origin_pools"
    /\ http.URL reqU = "https://api.example.com/api/config/namespaces/prod/origin_pools/web".
Proof.
  destruct (@create_update_same_payload Sample.tables Sample.ok Sample.cluster Sample.web)
    as (_ & _ & H).
  eexists _, _. split; [reflexivity|]. split; [reflexivity|].
  destruct (H _ _ (list_elem_of_here _ _) (list_elem_of_here _ _))
    as (ips & port & _ & _ & Hbody & Hheader).
  split; [exact Hbody|]. split; [exact Hheader|]. repeat split.
Defined.

Lemma origin_servers_tagged_inside_sample :
  xc_siteinterface Sample.ok = "Outside"
  /\ exists req ip1 ip2 site,
       requests (trace (@createOriginPool Sample.tables Sample.ok Sample.cluster Sample.web)) = [req]
       /\ http.Body req
          = Some (JObject
                    [("metadata",
                      JObject [("name", JString "web");
                               ("description", JString "Created by OriginSync");
                               ("disable", JBool false)]);
                     ("spec",
                      JObject [("origin_servers",
                                JArray
                                  [JObject [("private_ip",
                                             JObject [("ip", ip1); ("site_locator", site);
                                                      ("inside_network", JObject []);
                                                      ("outside_network", JNull)])];
                                   JObject [("private_ip",
                                             JObject [("ip", ip2); ("site_locator", site);
                                                      ("inside_network", JObject []);
                                                      ("outside_network", JNull)])]]);
                               ("no_tls", JObject []);
                               ("port", JNumber 30080);
                               ("same_as_endpoint_port", JObject []);
                               ("loadbalancer_algorithm", JString "LB_OVERRIDE");
                               ("endpoint_selection", JString "LOCAL_PREFERRED")])]).
Proof.
  split; [reflexivity|].
  eexists _, _, _, _. split; [reflexivity|].
  destruct (@origin_servers_tagged_inside Sample.tables Sample.ok Sample.cluster Sample.web
              _ eq_refl (or_introl (list_elem_of_here _ _))) as (payload & Hbody & _ & _).
  reflexivity.
Defined.

End SampleRuns.

(** * Further properties *)

(** ** The resolver in closed form *)

Section ResolverClosedForm.

(** X6.  [firstInternalIP] finds the first address of type InternalIP: the
    addresses before it have another type, the ones after it are ignored;
    it finds none exactly when no address has that type. *)
Theorem firstInternalIP_first (addrs : list corev1.NodeAddress) :
  match firstInternalIP addrs with
  | Some address =>
      exists before after,
        addrs = before
                ++ {| corev1.Addr_Type := corev1.NodeInternalIP; corev1.Address := address |}
                :: after
        /\ Forall (fun a => corev1.Addr_Type a <> corev1.NodeInternalIP) before
  | None => Forall (fun a => corev1.Addr_Type a <> corev1.NodeInternalIP) addrs
  end.
Proof.
  induction addrs as [|[ty a] rest IH]; cbn [firstInternalIP]; [constructor|].
  cbn [corev1.Addr_Type corev1.Address].
  destruct (String.eqb_spec ty corev1.NodeInternalIP) as [->|Hne].
  - exists [], rest. split; [reflexivity|constructor].
  - destruct (firstInternalIP rest) as [address|].
    + destruct IH as (before & after & -> & Hbefore).
      exists ({| corev1.Addr_Type := ty; corev1.Address := a |} :: before), after.
      split; [reflexivity|]. by constructor.
    + by constructor.
Qed.

(** The loop in closed form.  [seen] holds the nodes met so far; those of
    them that contributed are the keys of [nodeNames]. *)
Lemma forPods_closed (clientset : Clientset) (items : list corev1.Pod) :
  forall (nodeIPs0 : list string) (nodeNames0 : gmap string bool) (seen : gset string),
    (forall n, n ∈ dom nodeNames0 <-> n ∈ seen /\ is_Some (nodeIP clientset n)) ->
    exists nodeNames,
      forPods clientset items nodeIPs0 nodeNames0
      = (omap (node_error clientset) items,
         (nodeIPs0 ++ omap (nodeIP clientset)
                         (fresh_nodes seen (corev1.Spec_NodeName <$> items)),
          nodeNames)).
Proof.
  induction items as [|pod rest IH]; intros nodeIPs0 nodeNames0 seen Hinv.
  - exists nodeNames0. cbn. by rewrite app_nil_r.
  - rewrite fmap_cons. cbn [forPods fresh_nodes omap list_omap].
    set (n := corev1.Spec_NodeName pod) in *.
    destruct (nodeNames0 !! n) as [b|] eqn:Hseen.
    + assert (Hn : n ∈ dom nodeNames0) by (apply elem_of_dom; eauto).
      apply Hinv in Hn as [Hin [ip Hip]].
      rewrite decide_True by done.
      assert (node_error clientset pod = None) as ->.
      { unfold node_error, nodeIP in *. fold n. by destruct (Nodes_Get clientset n). }
      by apply IH.
    + assert (Hn : n ∉ dom nodeNames0) by (by apply not_elem_of_dom).
      unfold node_error. fold n.
      destruct (Nodes_Get clientset n) as [node|err] eqn:Hget.
      * destruct (firstInternalIP (corev1.Status_Addresses node)) as [address|] eqn:Haddr.
        -- assert (Hip : nodeIP clientset n = Some address)
             by (unfold nodeIP; by rewrite Hget).
           assert (n ∉ seen) by (intros Hin; apply Hn, Hinv; eauto).
           rewrite decide_False by done. cbn [omap list_omap]. rewrite Hip.
           destruct (IH (nodeIPs0 ++ [address]) (<[n:=true]> nodeNames0) ({[n]} ∪ seen))
             as (names & ->).
           { intros m. rewrite dom_insert_L, !elem_of_union, !elem_of_singleton, Hinv.
             split; [intros [->|[? ?]]; eauto|intros [[->|?] ?]; eauto]. }
           exists names. by rewrite <- app_assoc.
        -- assert (Hip : nodeIP clientset n = None) by (unfold nodeIP; by rewrite Hget).
           destruct (decide (n ∈ seen)) as [Hin|Hout]; [by apply IH|].
           cbn [omap list_omap]. rewrite Hip. apply IH.
           intros m. rewrite !elem_of_union, !elem_of_singleton, Hinv.
           split; [intros [? ?]; eauto|intros [[->|?] Hsome]; eauto].
           rewrite Hip in Hsome. by destruct Hsome.
      * assert (Hip : nodeIP clientset n = None) by (unfold nodeIP; by rewrite Hget).
        unfold bind, log_Printf.
        assert (exists names,
                   forPods clientset rest nodeIPs0 nodeNames0
                   = (omap (node_error clientset) rest,
                      (nodeIPs0 ++ omap (nodeIP clientset)
                                      (if decide (n ∈ seen)
                                       then fresh_nodes seen (corev1.Spec_NodeName <$> rest)
                                       else n :: fresh_nodes ({[n]} ∪ seen)
                                                   (corev1.Spec_NodeName <$> rest)),
                       names))) as (names & ->).
        { destruct (decide (n ∈ seen)) as [Hin|Hout]; [by apply IH|].
          cbn [omap list_omap]. rewrite Hip. apply IH.
          intros m. rewrite !elem_of_union, !elem_of_singleton, Hinv.
          split; [intros [? ?]; eauto|intros [[->|?] Hsome]; eauto].
          rewrite Hip in Hsome. by destruct Hsome. }
        exists names. reflexivity.
Qed.

(** X7.  The addresses returned are the first internal addresses of the nodes
    of the pods, in the order in which the nodes first appear among the
    pods; a node that cannot be fetched or has no internal address
    contributes nothing, however many pods it hosts. *)
Theorem getNodeIPsForService_in_order clientset service items :
  Pods_List clientset (corev1.Namespace service) (corev1.Spec_Selector service) = inl items ->
  snd (getNodeIPsForService clientset service)
  = (omap (nodeIP clientset) (fresh_nodes ∅ (corev1.Spec_NodeName <$> items)), None).
Proof.
  intros Hlist. unfold getNodeIPsForService. rewrite Hlist. unfold bind.
  destruct (forPods_closed clientset items [] ∅ ∅) as (names & ->); [|reflexivity].
  intros n. rewrite dom_empty_L. split; [intros Hn|intros [Hn _]]; by apply not_elem_of_empty in Hn.
Qed.

Lemma getNodeIPsForService_in_order_demo :
  snd (getNodeIPsForService Demo.cluster Sample.web) = (["10.0.0.2"; "10.0.0.1"], None).
Proof.
  rewrite (getNodeIPsForService_in_order Demo.cluster Sample.web Demo.pods eq_refl).
  vm_compute. reflexivity.
Defined.

(** X8.  Resolution logs one line for every pod whose node cannot be fetched, one
    per pod and not per node, in the order of the pods, and does nothing
    else that can be observed: a node without internal address is passed
    over in silence, and when the pods cannot be listed nothing is logged
    here and the error is returned with no address. *)
Theorem getNodeIPsForService_log clientset service :
  match Pods_List clientset (corev1.Namespace service) (corev1.Spec_Selector service) with
  | inl items =>
      trace (getNodeIPsForService clientset service) = omap (node_error clientset) items
  | inr err =>
      getNodeIPsForService clientset service
      = ([], ([], Some (Errorf_v "error fetching pods for service %s: %v"
                                 [corev1.Name service] err)))
  end
  /\ Forall (fun e => is_Log e = true) (trace (getNodeIPsForService clientset service)).
Proof.
  unfold getNodeIPsForService.
  destruct (Pods_List clientset _ _) as [items|err]; [|split; [reflexivity|constructor]].
  unfold bind.
  destruct (forPods_closed clientset items [] ∅ ∅) as (names & ->).
  { intros n. rewrite dom_empty_L.
    split; [intros Hn|intros [Hn _]]; by apply not_elem_of_empty in Hn. }
  cbn [trace fst ret]. rewrite app_nil_r. split; [reflexivity|].
  apply Forall_forall. intros e He.
  apply list_elem_of_omap in He as (pod & _ & Hpod).
  unfold node_error in Hpod. destruct (Nodes_Get clientset _); by inversion Hpod.
Qed.

End ResolverClosedForm.

(** ** The canonicalizer in closed form *)

Section CanonicalizerClosedForm.
Context {U : UnicodeTables}.

Lemma kept_cons c c' (t : string) :
  kept (String c (String c' t))
  = if good_byte c then String c (kept (String c' t)) else kept (String c' t).
Proof. reflexivity. Qed.

(** The last loop, on a lowered string, computes [kept]. *)
Lemma fold_keep_kept T (t : string) : forall i acc,
  lowered t = true -> len T = i + len t ->
  fold_left (keep_step T) (indexed i t) acc = acc +:+ kept t.
Proof.
  induction t as [|c t IH]; intros i acc Hlow Hlen.
  - cbn. by rewrite append_nil_r.
  - unfold lowered in Hlow. cbn [all_bytes] in Hlow.
    apply andb_prop in Hlow as [[Hc Hup%negb_true_iff]%andb_prop Ht].
    rewrite indexed_cons. cbn [fold_left].
    assert (Hstep : keep_step T acc (i, byte_val c)
                    = if (i =? len T - 1) && is_hyphen c then acc
                      else if good_byte c then acc +:+ String c EmptyString else acc).
    { unfold keep_step. rewrite (keep_ascii c Hc Hup), (string_of_rune_byte c Hc).
      change (byte_val c =? 0x2D) with (is_hyphen c).
      destruct (good_byte c) eqn:Hgood.
      - destruct ((i =? len T - 1) && is_hyphen c); [apply slice_to_last|reflexivity].
      - assert (is_hyphen c = false) as ->.
        { unfold good_byte in Hgood. by apply orb_false_elim in Hgood as [_ ?]. }
        by rewrite andb_false_r. }
    rewrite Hstep. destruct t as [|c' t].
    + cbn [indexed fold_left kept].
      assert ((i =? len T - 1) = true) as ->.
      { apply Z.eqb_eq. unfold len in *. cbn [String.length] in Hlen. lia. }
      cbn [andb]. destruct (is_hyphen c) eqn:Hh.
      * rewrite andb_false_r. by rewrite append_nil_r.
      * rewrite andb_true_r. destruct (good_byte c); [reflexivity|by rewrite append_nil_r].
    + assert ((i =? len T - 1) = false) as ->.
      { apply Z.eqb_neq. unfold len in *. cbn [String.length] in Hlen. lia. }
      cbn [andb]. rewrite kept_cons.
      rewrite IH; [|exact Ht|unfold len in *; cbn [String.length] in *; lia].
      destruct (good_byte c); [|reflexivity].
      by rewrite append_assoc.
Qed.

(** On ASCII input the canonicalizer is: dots to hyphens, lower case,
    leading non-letters off, [kept]. *)
Lemma formatServiceName_ascii_closed (s : string) :
  is_ascii s = true ->
  formatServiceName s
  = kept (strip_leading (map_bytes lower_byte (strings_ReplaceAll1 s "." "-"))).
Proof.
  intros Hascii. unfold formatServiceName.
  assert (H1 : is_ascii (strings_ReplaceAll1 s "." "-") = true)
    by (by apply is_ascii_replace).
  rewrite (strings_ToLower_ascii _ H1).
  pose proof (lowered_map_lower _ H1) as H2.
  destruct (lowered_strip _ H2) as [H3 _].
  set (T := strip_leading _) in *.
  assert (H4 : is_ascii T = true).
  { revert H3. apply all_bytes_impl. by intros c [? _]%andb_prop. }
  unfold range_string. rewrite (range_string_ascii T 0 H4).
  by rewrite (fold_keep_kept T T 0 EmptyString H3).
Qed.

Ltac each_byte c :=
  destruct c as [[] [] [] [] [] [] [] []]; intros; try discriminate; repeat split; reflexivity.

(** Facts about [kept]. *)
Lemma kept_good (t : string) : all_bytes good_byte (kept t) = true.
Proof.
  induction t as [|c t IH]; [reflexivity|]. destruct t as [|c' t].
  - cbn [kept]. destruct (good_byte c) eqn:Hc; [|reflexivity].
    destruct (is_hyphen c); [reflexivity|]. cbn. by rewrite Hc.
  - rewrite kept_cons. destruct (good_byte c) eqn:Hc; [|exact IH].
    cbn [all_bytes]. by rewrite Hc, IH.
Qed.

Lemma kept_length (t : string) : (String.length (kept t) <= String.length t)%nat.
Proof.
  induction t as [|c t IH]; [reflexivity|]. destruct t as [|c' t].
  - cbn [kept]. destruct (good_byte c && negb (is_hyphen c)); cbn; lia.
  - rewrite kept_cons. destruct (good_byte c); cbn [String.length] in *; lia.
Qed.

Lemma kept_head c (t : string) :
  is_lower c = true -> exists r, kept (String c t) = String c r.
Proof.
  intros Hc. assert (good_byte c = true) as Hgood by (unfold good_byte; by rewrite Hc).
  assert (is_hyphen c = false) as Hh by (by apply lower_not_hyphen).
  destruct t as [|c' t].
  - cbn [kept]. rewrite Hgood, Hh. by eexists.
  - rewrite kept_cons, Hgood. by eexists.
Qed.

Lemma kept_trailing_hyphen (t : string) :
  all_bytes good_byte t = true -> ends_with_hyphen t = true ->
  (String.length (kept t) < String.length t)%nat.
Proof.
  induction t as [|c t IH]; [discriminate|]. destruct t as [|c' t].
  - cbn [kept ends_with_hyphen last_byte]. intros _ ->. rewrite andb_false_r. cbn. lia.
  - cbn [all_bytes ends_with_hyphen last_byte] in *.
    intros [Hc Ht]%andb_prop Hlast. rewrite kept_cons, Hc.
    specialize (IH Ht Hlast). cbn [String.length] in *. lia.
Qed.

Lemma map_bytes_length f (s : string) : String.length (map_bytes f s) = String.length s.
Proof. induction s as [|c s IH]; cbn; [reflexivity|by rewrite IH]. Qed.

Lemma strip_leading_length (s : string) :
  (String.length (strip_leading s) <= String.length s)%nat.
Proof.
  induction s as [|c s IH]; cbn [strip_leading]; [reflexivity|].
  destruct (unicode_IsLetter (byte_val c)); cbn [String.length]; lia.
Qed.

Lemma good_is_ascii (s : string) : all_bytes good_byte s = true -> is_ascii s = true.
Proof. apply all_bytes_impl. intros b Hb. by destruct (good_byte_ascii b Hb). Qed.

(** A string of lower-case letters, digits and hyphens that begins with a
    letter goes through the first three steps unchanged. *)
Lemma formatServiceName_good (c : ascii) (t : string) :
  is_lower c = true -> all_bytes good_byte t = true ->
  formatServiceName (String c t) = kept (String c t).
Proof.
  intros Hc Ht.
  assert (Hgood : all_bytes good_byte (String c t) = true).
  { cbn [all_bytes]. unfold good_byte at 1. by rewrite Hc, Ht. }
  rewrite (formatServiceName_ascii_closed _ (good_is_ascii _ Hgood)).
  assert (strings_ReplaceAll1 (String c t) "." "-" = String c t) as ->.
  { apply map_bytes_id. revert Hgood. apply all_bytes_impl.
    intros b Hb. destruct (good_byte_ascii b Hb) as (_ & _ & ->). apply Ascii.eqb_refl. }
  assert (map_bytes lower_byte (String c t) = String c t) as ->.
  { apply map_bytes_id. revert Hgood. apply all_bytes_impl.
    intros b Hb. destruct (good_byte_ascii b Hb) as (_ & Hup & _).
    unfold lower_byte. rewrite Hup. apply Ascii.eqb_refl. }
  destruct (good_byte_ascii c) as (Hc7 & Hup & _); [unfold good_byte; by rewrite Hc|].
  cbn [strip_leading]. by rewrite (letter_ascii c Hc7 Hup), Hc.
Qed.

(** An ASCII name that the canonicalizer leaves unchanged has the
    specified shape. *)
Lemma fixed_point_canonical (s : string) :
  is_ascii s = true -> formatServiceName s = s -> canonical_name s = true.
Proof.
  intros Hascii Hfix.
  destruct (formatServiceName_ascii s Hascii) as [Hgood Hhead].
  rewrite Hfix in Hgood, Hhead.
  destruct Hhead as [->|(c & t & -> & Hc)]; [reflexivity|].
  cbn [all_bytes] in Hgood. apply andb_prop in Hgood as [Hgc Ht].
  cbn [canonical_name]. rewrite Hc, Ht. cbn [andb].
  destruct (is_hyphen (last_byte c t)) eqn:Hlast; [exfalso|reflexivity].
  rewrite (formatServiceName_good c t Hc Ht) in Hfix.
  assert (Hlt : (String.length (kept (String c t)) < String.length (String c t))%nat).
  { apply kept_trailing_hyphen; [|exact Hlast]. cbn [all_bytes]. by rewrite Hgc, Ht. }
  rewrite Hfix in Hlt. lia.
Qed.

(** X1.  On ASCII input the canonical name is made of lower-case letters,
    digits and hyphens, is ASCII again, is no longer than the input, and is
    empty or begins with a letter. *)
Theorem formatServiceName_ascii_bounds (s : string) :
  is_ascii s = true ->
  all_bytes good_byte (formatServiceName s) = true
  /\ is_ascii (formatServiceName s) = true
  /\ (String.length (formatServiceName s) <= String.length s)%nat
  /\ (formatServiceName s = EmptyString
      \/ exists c t, formatServiceName s = String c t /\ is_lower c = true).
Proof.
  intros Hascii. rewrite (formatServiceName_ascii_closed s Hascii).
  set (T := strip_leading _).
  assert (Hgood : all_bytes good_byte (kept T) = true) by apply kept_good.
  split; [exact Hgood|]. split; [by apply good_is_ascii|]. split.
  - etransitivity; [apply kept_length|]. etransitivity; [apply strip_leading_length|].
    unfold strings_ReplaceAll1. rewrite !map_bytes_length. lia.
  - assert (H1 : is_ascii (strings_ReplaceAll1 s "." "-") = true)
      by (by apply is_ascii_replace).
    destruct (lowered_strip _ (lowered_map_lower _ H1)) as [_ [HT|(c & t & HT & Hc)]];
      fold T in HT; rewrite HT; [by left|right].
    destruct (kept_head c t Hc) as [r Hr]. by exists c, r.
Qed.

(** X2.  Among ASCII names, the ones the canonicalizer leaves unchanged are
    exactly those of the shape [^[a-z]([a-z0-9-]*[a-z0-9])?$], and the
    empty one. *)
Theorem formatServiceName_fixed_points (s : string) :
  is_ascii s = true ->
  formatServiceName s = s <-> canonical_name s = true.
Proof.
  intros Hascii. split; [by apply fixed_point_canonical|apply formatServiceName_canonical].
Qed.

(** X3.  On ASCII input a second pass changes the name exactly when the first
    pass has left a hyphen at its end. *)
Theorem formatServiceName_idempotent_iff (s : string) :
  is_ascii s = true ->
  formatServiceName (formatServiceName s) = formatServiceName s
  <-> ends_with_hyphen (formatServiceName s) = false.
Proof.
  intros Hascii. split; [|by apply formatServiceName_ascii_idempotent].
  intros Hfix.
  destruct (formatServiceName_ascii s Hascii) as [Hgood _].
  pose proof (fixed_point_canonical _ (good_is_ascii _ Hgood) Hfix) as Hcanon.
  destruct (formatServiceName s) as [|c t]; [reflexivity|].
  cbn [canonical_name ends_with_hyphen] in *.
  by apply andb_prop in Hcanon as [_ ?%negb_true_iff].
Qed.

(** Byte maps: composition, extension, append. *)
Lemma map_bytes_compose f g (s : string) :
  map_bytes f (map_bytes g s) = map_bytes (fun c => f (g c)) s.
Proof. induction s as [|c s IH]; cbn; [reflexivity|by rewrite IH]. Qed.

Lemma map_bytes_ext_on (p : ascii -> bool) f g (s : string) :
  (forall c, p c = true -> f c = g c) ->
  all_bytes p s = true -> map_bytes f s = map_bytes g s.
Proof.
  intros Hfg. induction s as [|c s IH]; cbn; [reflexivity|].
  intros [Hc Hs]%andb_prop. by rewrite (Hfg c Hc), IH.
Qed.

Lemma map_bytes_append f (a b : string) :
  map_bytes f (a +:+ b) = map_bytes f a +:+ map_bytes f b.
Proof.
  induction a as [|x a IH]; [reflexivity|].
  rewrite append_cons. cbn [map_bytes]. by rewrite IH.
Qed.

Lemma all_bytes_map p f (s : string) :
  all_bytes p (map_bytes f s) = all_bytes (fun c => p (f c)) s.
Proof. induction s as [|c s IH]; cbn; [reflexivity|by rewrite IH]. Qed.

Lemma lower_dot_lower c :
  (byte_val c <? 0x80) = true -> lower_dot (lower_byte c) = lower_dot c.
Proof. each_byte c. Qed.

Lemma dot_dot c :
  (if Ascii.eqb (if Ascii.eqb c "." then "-" else c) "." then "-"
   else (if Ascii.eqb c "." then "-" else c))%char
  = (if Ascii.eqb c "." then "-" else c)%char.
Proof. each_byte c. Qed.

Lemma lower_dot_letter c :
  (byte_val c <? 0x80) = true ->
  unicode_IsLetter (byte_val (lower_dot c)) = is_letter_byte c
  /\ is_lower (lower_dot c) = is_letter_byte c.
Proof. each_byte c. Qed.

(** The first two steps on an ASCII string. *)
Lemma lowered_replaced_ascii (s : string) :
  is_ascii s = true ->
  strings_ToLower (strings_ReplaceAll1 s "." "-") = map_bytes lower_dot s.
Proof.
  intros Hascii.
  rewrite strings_ToLower_ascii by (by apply is_ascii_replace).
  unfold strings_ReplaceAll1. rewrite map_bytes_compose. reflexivity.
Qed.

(** Leading bytes that are not letters are dropped. *)
Lemma strip_leading_append (p t : string) :
  all_bytes (fun c => negb (unicode_IsLetter (byte_val c))) p = true ->
  strip_leading (p +:+ t) = strip_leading t.
Proof.
  induction p as [|c p IH]; [reflexivity|]. cbn [all_bytes].
  intros [Hc Hp]%andb_prop. rewrite append_cons. cbn [strip_leading].
  apply negb_true_iff in Hc. rewrite Hc. by apply IH.
Qed.

Lemma formatServiceName_prefix (p s : string) :
  is_ascii p = true -> all_bytes (fun c => negb (is_letter_byte c)) p = true ->
  is_ascii s = true ->
  formatServiceName (p +:+ s) = formatServiceName s.
Proof.
  intros Hp Hnone Hs.
  assert (Hps : is_ascii (p +:+ s) = true).
  { unfold is_ascii in *. by rewrite all_bytes_append, Hp, Hs. }
  unfold formatServiceName.
  rewrite (lowered_replaced_ascii _ Hps), (lowered_replaced_ascii _ Hs).
  rewrite map_bytes_append, strip_leading_append; [reflexivity|].
  rewrite all_bytes_map.
  assert (Hboth : all_bytes (fun c => (byte_val c <? 0x80) && negb (is_letter_byte c)) p = true).
  { clear -Hp Hnone. unfold is_ascii in Hp. induction p as [|c p IH]; [reflexivity|].
    cbn [all_bytes] in *. apply andb_prop in Hp as [? ?], Hnone as [? ?].
    by rewrite IH, !andb_true_r, andb_true_iff. }
  revert Hboth. apply all_bytes_impl. intros c [Hc Hn]%andb_prop.
  destruct (lower_dot_letter c Hc) as [-> _]. exact Hn.
Qed.

(** Two names that differ in dots written for hyphens only have the same
    canonical name, whatever their bytes. *)
Lemma formatServiceName_dots (s s' : string) :
  strings_ReplaceAll1 s "." "-" = strings_ReplaceAll1 s' "." "-" ->
  formatServiceName s = formatServiceName s'.
Proof. intros Hsame. unfold formatServiceName. by rewrite Hsame. Qed.

Lemma strings_ReplaceAll1_twice (s : string) :
  strings_ReplaceAll1 (strings_ReplaceAll1 s "." "-") "." "-" = strings_ReplaceAll1 s "." "-".
Proof.
  unfold strings_ReplaceAll1. rewrite map_bytes_compose.
  apply (map_bytes_ext_on (fun _ => true)); [intros c _; apply dot_dot|].
  by induction s as [|c s IH].
Qed.

(** X4.  The canonicalizer does not tell a dot from a hyphen, on any input:
    replacing the dots of a name by hyphens, and more generally exchanging
    dots and hyphens in it, does not change the canonical name.  Nor does
    it tell, on ASCII input, an upper-case letter from its lower-case
    form. *)
Theorem formatServiceName_case_dots (s : string) :
  formatServiceName (strings_ReplaceAll1 s "." "-") = formatServiceName s
  /\ (forall s', strings_ReplaceAll1 s' "." "-" = strings_ReplaceAll1 s "." "-" ->
                 formatServiceName s' = formatServiceName s)
  /\ (is_ascii s = true ->
      formatServiceName (strings_ToLower s) = formatServiceName s
      /\ formatServiceName (map_bytes lower_byte s) = formatServiceName s).
Proof.
  assert (Hdots : formatServiceName (strings_ReplaceAll1 s "." "-") = formatServiceName s)
    by apply formatServiceName_dots, strings_ReplaceAll1_twice.
  split; [exact Hdots|]. split; [intros s'; apply formatServiceName_dots|].
  intros Hascii.
  assert (Hlower : formatServiceName (map_bytes lower_byte s) = formatServiceName s).
  { assert (Hl : is_ascii (map_bytes lower_byte s) = true).
    { generalize (lowered_map_lower s Hascii). apply all_bytes_impl.
      by intros c [? _]%andb_prop. }
    unfold formatServiceName.
    rewrite (lowered_replaced_ascii _ Hl), (lowered_replaced_ascii _ Hascii).
    rewrite map_bytes_compose.
    rewrite (map_bytes_ext_on (fun c => byte_val c <? 0x80) _ lower_dot s);
      [reflexivity|apply lower_dot_lower|exact Hascii]. }
  split; [|exact Hlower].
  by rewrite (strings_ToLower_ascii s Hascii).
Qed.

(** X5.  On ASCII input, leading characters that are not letters are dropped,
    so that the canonical name is empty exactly when the input has no
    letter. *)
Theorem formatServiceName_leading (s : string) :
  is_ascii s = true ->
  (forall p, is_ascii p = true ->
             all_bytes (fun c => negb (is_letter_byte c)) p = true ->
             formatServiceName (p +:+ s) = formatServiceName s)
  /\ (formatServiceName s = EmptyString
      <-> all_bytes (fun c => negb (is_letter_byte c)) s = true).
Proof.
  intros Hascii. split; [intros p Hp Hnone; by apply formatServiceName_prefix|].
  split.
  - intros Hempty. rewrite (formatServiceName_ascii_closed s Hascii) in Hempty.
    unfold strings_ReplaceAll1 in Hempty. rewrite map_bytes_compose in Hempty.
    change (fun c => lower_byte (if Ascii.eqb c "." then "-" else c))
      with lower_dot in Hempty.
    revert Hascii Hempty. unfold is_ascii.
    induction s as [|c s IH]; [reflexivity|]. cbn [all_bytes map_bytes strip_leading].
    intros [Hc Hs]%andb_prop. destruct (lower_dot_letter c Hc) as [-> Hlow].
    destruct (is_letter_byte c) eqn:Hl; [|intros Hempty; by rewrite IH].
    destruct (kept_head _ (map_bytes lower_dot s) Hlow) as [r ->].
    discriminate.
  - intros Hnone. rewrite <- (append_nil_r s).
    by rewrite (formatServiceName_prefix s EmptyString Hascii Hnone eq_refl).
Qed.

End CanonicalizerClosedForm.

(** ** Runs of the canonicalizer *)

Section CanonicalizerRuns.

Lemma formatServiceName_ascii_bounds_sample :
  is_ascii "9.Web_App-" = true
  /\ @formatServiceName Sample.tables "9.Web_App-" = "webapp"
  /\ (String.length (@formatServiceName Sample.tables "9.Web_App-") <= 10)%nat.
Proof.
  split; [reflexivity|].
  destruct (@formatServiceName_ascii_bounds Sample.tables "9.Web_App-" eq_refl)
    as (_ & _ & Hlen & _).
  split; [reflexivity|exact Hlen].
Defined.

Lemma formatServiceName_fixed_points_sample :
  is_ascii "web-1" = true
  /\ @formatServiceName Sample.tables "web-1" = "web-1"
  /\ canonical_name "web-" = false
  /\ @formatServiceName Sample.tables "web-" <> "web-".
Proof.
  split; [reflexivity|].
  split; [apply (proj2 (@formatServiceName_fixed_points Sample.tables "web-1" eq_refl));
          reflexivity|].
  split; [reflexivity|].
  intros Hfix.
  apply (proj1 (@formatServiceName_fixed_points Sample.tables "web-" eq_refl)) in Hfix.
  discriminate Hfix.
Defined.

Lemma formatServiceName_idempotent_iff_sample :
  is_ascii "web--" = true
  /\ @formatServiceName Sample.tables (@formatServiceName Sample.tables "web.app")
     = @formatServiceName Sample.tables "web.app"
  /\ @formatServiceName Sample.tables (@formatServiceName Sample.tables "web--")
     <> @formatServiceName Sample.tables "web--".
Proof.
  split; [reflexivity|]. split.
  - apply (proj2 (@formatServiceName_idempotent_iff Sample.tables "web.app" eq_refl)).
    reflexivity.
  - intros Hfix.
    apply (proj1 (@formatServiceName_idempotent_iff Sample.tables "web--" eq_refl)) in Hfix.
    discriminate Hfix.
Defined.

(** The last two lines are about a name that is not ASCII: "caf", the two
    bytes of U+00E9, ".x". *)
Lemma formatServiceName_case_dots_sample :
  is_ascii "Web.API" = true
  /\ @formatServiceName Sample.tables "Web-API" = @formatServiceName Sample.tables "Web.API"
  /\ @formatServiceName Sample.tables "web.api" = @formatServiceName Sample.tables "Web.API"
  /\ is_ascii ("caf" +:+ String "195" (String "169" ".x")) = false
  /\ @formatServiceName Sample.tables ("caf" +:+ String "195" (String "169" "-x"))
     = @formatServiceName Sample.tables ("caf" +:+ String "195" (String "169" ".x")).
Proof.
  split; [reflexivity|].
  destruct (@formatServiceName_case_dots Sample.tables "Web.API") as (Hd & _ & Hcase).
  split; [exact Hd|]. split; [exact (proj1 (Hcase eq_refl))|]. split; [reflexivity|].
  exact (proj1 (@formatServiceName_case_dots Sample.tables
                  ("caf" +:+ String "195" (String "169" ".x")))).
Defined.

Lemma formatServiceName_leading_sample :
  is_ascii "abc" = true
  /\ @formatServiceName Sample.tables "123-abc" = @formatServiceName Sample.tables "abc"
  /\ @formatServiceName Sample.tables "2024-01.02" = "".
Proof.
  split; [reflexivity|].
  destruct (@formatServiceName_leading Sample.tables "abc" eq_refl) as [Hdrop _].
  split; [exact (Hdrop "123-" eq_refl eq_refl)|].
  destruct (@formatServiceName_leading Sample.tables "2024-01.02" eq_refl) as [_ Hempty].
  apply Hempty. reflexivity.
Defined.

End CanonicalizerRuns.

(** ** The runs of the reconciler, event by event *)

Section ReconcilerRuns.
Context {U : UnicodeTables}.

(** Resolution logs lines of one kind only. *)
Lemma resolver_lines clientset service e :
  e ∈ trace (getNodeIPsForService clientset service) ->
  exists args, e = Log "Error fetching node %s for pod %s: %v" args.
Proof.
  unfold getNodeIPsForService.
  destruct (Pods_List clientset _ _) as [items|err]; [|intros He; inversion He].
  unfold bind.
  destruct (forPods_closed clientset items [] ∅ ∅) as (names & ->).
  { intros n. rewrite dom_empty_L.
    split; [intros Hn|intros [Hn _]]; by apply not_elem_of_empty in Hn. }
  cbn [trace fst ret]. rewrite app_nil_r.
  intros (pod & _ & Hpod)%list_elem_of_omap.
  unfold node_error in Hpod. destruct (Nodes_Get clientset _); inversion Hpod. by eexists.
Qed.

(** The create and the update path: resolution, then [pushEnd]. *)
Lemma pushOriginPool_run w clientset service method url :
  pushOriginPool w clientset service method url
  = (trace (getNodeIPsForService clientset service)
       ++ pushEnd w service method url
            (fst (snd (getNodeIPsForService clientset service)))
            (snd (snd (getNodeIPsForService clientset service))), tt).
Proof.
  unfold pushOriginPool, pushEnd, bind, trace.
  destruct (getNodeIPsForService clientset service) as [t [ips [err|]]]; [reflexivity|].
  cbn [fst snd]. destruct ips as [|ip ips]; [reflexivity|]. cbn [length Nat.eqb].
  destruct (firstNodePort service) as [port|]; [|reflexivity].
  destruct (url_Parse w url); [reflexivity|]. unfold Do_.
  destruct (client_Do w _ _) as [resp|err]; [|reflexivity].
  by destruct (http.StatusCode resp =? http.StatusOK).
Qed.

(** [manageOriginPool], branch by branch. *)
Lemma manageOriginPool_run w clientset service :
  trace (manageOriginPool w clientset service)
  = match url_Parse w (originPoolURL w (formatServiceName (corev1.Name service))) with
    | Some err =>
        [Log "Error checking if origin pool exists: %v"
             [AErr (Errorf_v "error creating request: %v" [] err)]]
    | None =>
        Do {| http.Timeout := 10 |} (existsRequest w service)
        :: match client_Do w {| http.Timeout := 10 |} (existsRequest w service) with
           | inr err =>
               [Log "Error checking if origin pool exists: %v"
                    [AErr (Errorf_v "error sending request to API: %v" [] err)]]
           | inl resp =>
               if http.StatusCode resp =? http.StatusOK then
                 Log "Origin pool already exists, updating: %s" [AStr (corev1.Name service)]
                 :: trace (updateOriginPool w clientset service)
               else if http.StatusCode resp =? http.StatusNotFound then
                 Log "Creating new origin pool: %s" [AStr (corev1.Name service)]
                 :: trace (createOriginPool w clientset service)
               else
                 [Log "Error checking if origin pool exists: %v"
                      [AErr (Errorf "unexpected HTTP status: %s" [http.Status resp])]]
           end
    end.
Proof.
  unfold manageOriginPool. rewrite checkOriginPoolExists_run.
  destruct (url_Parse w _); [reflexivity|]. unfold bind.
  destruct (client_Do w _ _) as [resp|err]; [|reflexivity].
  destruct (http.StatusCode resp =? http.StatusOK).
  { by destruct (updateOriginPool w clientset service). }
  destruct (http.StatusCode resp =? http.StatusNotFound); [|reflexivity].
  by destruct (createOriginPool w clientset service).
Qed.

(** [deleteOriginPool], branch by branch. *)
Lemma deleteOriginPool_run w service :
  trace (deleteOriginPool w service)
  = match url_Parse w (originPoolURL w (formatServiceName (corev1.Name service))) with
    | Some err => [Log "Error creating DELETE request: %v" [AErr err]]
    | None =>
        [Do {| http.Timeout := 10 |} (deleteRequest w service);
         match client_Do w {| http.Timeout := 10 |} (deleteRequest w service) with
         | inr err => Log "Error sending DELETE request: %v" [AErr err]
         | inl resp =>
             if http.StatusCode resp =? http.StatusOK
             then Log "Successfully deleted origin pool" []
             else Log "Failed to delete origin pool: %s, Status Code: %d"
                      [AStr (http.Status resp); AInt (http.StatusCode resp)]
         end]
    end.
Proof.
  unfold deleteOriginPool, http_NewRequest.
  change (url_Parse w _)
    with (url_Parse w (originPoolURL w (formatServiceName (corev1.Name service)))).
  destruct (url_Parse w _); [reflexivity|]. unfold bind, Do_.
  change (client_Do w _ _)
    with (client_Do w {| http.Timeout := 10 |} (deleteRequest w service)).
  destruct (client_Do w _ _) as [resp|err]; [|reflexivity].
  by destruct (http.StatusCode resp =? http.StatusOK).
Qed.

(** Every event of a create or update run is a line of resolution or one
    of [pushEnd]. *)
Lemma pushOriginPool_events w clientset service method url e :
  e ∈ trace (pushOriginPool w clientset service method url) ->
  (exists args, e = Log "Error fetching node %s for pod %s: %v" args)
  \/ e ∈ pushEnd w service method url
           (fst (snd (getNodeIPsForService clientset service)))
           (snd (snd (getNodeIPsForService clientset service))).
Proof.
  rewrite pushOriginPool_run. cbn [trace fst].
  intros [He|He]%elem_of_app; [left; by eapply resolver_lines|by right].
Qed.

Lemma requests_Do client req (t : list Event) :
  requests (Do client req :: t) = req :: requests t.
Proof. reflexivity. Qed.

Lemma requests_Log format args (t : list Event) :
  requests (Log format args :: t) = requests t.
Proof. reflexivity. Qed.

Lemma requests_elem (t : list Event) req :
  req ∈ requests t <-> exists client, Do client req ∈ t.
Proof.
  unfold requests. rewrite list_elem_of_omap. split.
  - intros ([f a|client r] & He & Hr); inversion Hr; subst. by exists client.
  - intros [client He]. by exists (Do client req).
Qed.

(** The events of [pushEnd]: lines, and at most one request, sent with the
    default client. *)
Lemma pushEnd_events w service method url nodeIPs err e :
  e ∈ pushEnd w service method url nodeIPs err ->
  is_Log e = true
  \/ exists nodePort,
       nodeIPs <> [] /\ err = None /\ firstNodePort service = Some nodePort
       /\ url_Parse w url = None
       /\ e = Do http.DefaultClient
                (payloadRequest w method url (originPoolPayload w service nodeIPs nodePort)).
Proof.
  unfold pushEnd. destruct err as [err|].
  { intros ->%list_elem_of_singleton. by left. }
  destruct nodeIPs as [|ip ips].
  { intros ->%list_elem_of_singleton. by left. }
  destruct (firstNodePort service) as [port|].
  2:{ intros ->%list_elem_of_singleton. by left. }
  destruct (url_Parse w url).
  { intros ->%list_elem_of_singleton. by left. }
  intros [->|He]%elem_of_cons.
  - right. exists port. by repeat split.
  - apply list_elem_of_singleton in He as ->. left.
    destruct (client_Do w _ _) as [resp|]; [|reflexivity].
    by destruct (http.StatusCode resp =? http.StatusOK).
Qed.

(** The events of a reconciliation: lines, the existence check with the
    ten-second client, and at most one create or update request with the
    default client. *)
Lemma manageOriginPool_events w clientset service e :
  e ∈ trace (manageOriginPool w clientset service) ->
  is_Log e = true
  \/ e = Do {| http.Timeout := 10 |} (existsRequest w service)
  \/ exists method url payload,
       (method = "POST" \/ method = "PUT")
       /\ e = Do http.DefaultClient (payloadRequest w method url payload).
Proof.
  rewrite manageOriginPool_run.
  destruct (url_Parse w _).
  { intros ->%list_elem_of_singleton. by left. }
  intros [->|He]%elem_of_cons; [by right; left|].
  destruct (client_Do w _ _) as [resp|err].
  2:{ apply list_elem_of_singleton in He as ->. by left. }
  destruct (http.StatusCode resp =? http.StatusOK).
  { apply elem_of_cons in He as [->|He]; [by left|].
    rewrite updateOriginPool_push in He.
    apply pushOriginPool_events in He as [[args ->]|He]; [by left|].
    apply pushEnd_events in He as [He|(port & _ & _ & _ & _ & ->)]; [by left|].
    right; right. eexists "PUT", _, _. split; [by right|reflexivity]. }
  destruct (http.StatusCode resp =? http.StatusNotFound).
  { apply elem_of_cons in He as [->|He]; [by left|].
    rewrite createOriginPool_push in He.
    apply pushOriginPool_events in He as [[args ->]|He]; [by left|].
    apply pushEnd_events in He as [He|(port & _ & _ & _ & _ & ->)]; [by left|].
    right; right. eexists "POST", _, _. split; [by left|reflexivity]. }
  apply list_elem_of_singleton in He as ->. by left.
Qed.

(** The events of a deletion: lines and at most the one DELETE. *)
Lemma deleteOriginPool_events w service e :
  e ∈ trace (deleteOriginPool w service) ->
  is_Log e = true \/ e = Do {| http.Timeout := 10 |} (deleteRequest w service).
Proof.
  rewrite deleteOriginPool_run. destruct (url_Parse w _).
  { intros ->%list_elem_of_singleton. by left. }
  intros [->|He]%elem_of_cons; [by right|].
  apply list_elem_of_singleton in He as ->. left.
  destruct (client_Do w _ _) as [resp|]; [|reflexivity].
  by destruct (http.StatusCode resp =? http.StatusOK).
Qed.

(** X9.  The existence check reports a pool as present exactly when its GET was
    answered 200, and as absent without error exactly when it was answered
    404; an unparsable URL, a transport error and any other status give an
    error, never together with "present".  It sends at most its one GET,
    which has no body. *)
Theorem checkOriginPoolExists_sound w service :
  (fst (snd (checkOriginPoolExists w service)) = true
   <-> url_Parse w (originPoolURL w (formatServiceName (corev1.Name service))) = None
       /\ exists resp,
            client_Do w {| http.Timeout := 10 |} (existsRequest w service) = inl resp
            /\ http.StatusCode resp = http.StatusOK)
  /\ (snd (checkOriginPoolExists w service) = (false, None)
      <-> url_Parse w (originPoolURL w (formatServiceName (corev1.Name service))) = None
          /\ exists resp,
               client_Do w {| http.Timeout := 10 |} (existsRequest w service) = inl resp
               /\ http.StatusCode resp <> http.StatusOK
               /\ http.StatusCode resp = http.StatusNotFound)
  /\ (fst (snd (checkOriginPoolExists w service)) = true ->
      snd (snd (checkOriginPoolExists w service)) = None)
  /\ requests (trace (checkOriginPoolExists w service))
     = match url_Parse w (originPoolURL w (formatServiceName (corev1.Name service))) with
       | Some _ => []
       | None => [existsRequest w service]
       end
  /\ http.Method (existsRequest w service) = "GET"
  /\ http.Body (existsRequest w service) = None.
Proof.
  rewrite checkOriginPoolExists_run.
  destruct (url_Parse w _) as [perr|].
  { cbn [fst snd trace]. split; [split; [discriminate|by intros [[=] _]]|].
    split; [split; [discriminate|by intros [[=] _]]|]. by repeat split. }
  destruct (client_Do w _ _) as [resp|err].
  2:{ cbn [fst snd trace]. split; [split; [discriminate|by intros (_ & resp & [=] & _)]|].
      split; [split; [discriminate|by intros (_ & resp & [=] & _)]|]. by repeat split. }
  destruct (http.StatusCode resp =? http.StatusOK) eqn:H200.
  { cbn [fst snd trace]. apply Z.eqb_eq in H200.
    split; [split; [intros _; split; [reflexivity|by exists resp]|reflexivity]|].
    split; [split; [discriminate|by intros (_ & resp' & [= <-] & Hne & _)]|].
    by repeat split. }
  apply Z.eqb_neq in H200.
  destruct (http.StatusCode resp =? http.StatusNotFound) eqn:H404.
  { cbn [fst snd trace]. apply Z.eqb_eq in H404.
    split; [split; [discriminate|by intros (_ & resp' & [= <-] & H)]|].
    split; [split; [intros _; split; [reflexivity|by exists resp]|reflexivity]|].
    by repeat split. }
  apply Z.eqb_neq in H404. cbn [fst snd trace].
  split; [split; [discriminate|by intros (_ & resp' & [= <-] & H)]|].
  split; [split; [discriminate|by intros (_ & resp' & [= <-] & _ & H)]|].
  by repeat split.
Qed.

(** X10.  A reconciliation sends nothing, or the existence check alone, or the
    existence check followed by one request: a POST to the collection, only
    after the check was answered 404, or a PUT to the pool, only after it
    was answered 200.  The payload is built from the addresses resolution
    returned and from the node port of the first declared port. *)
Theorem manageOriginPool_requests w clientset service :
  requests (trace (manageOriginPool w clientset service)) = []
  \/ requests (trace (manageOriginPool w clientset service)) = [existsRequest w service]
  \/ exists resp nodeIPs nodePort,
       client_Do w {| http.Timeout := 10 |} (existsRequest w service) = inl resp
       /\ snd (getNodeIPsForService clientset service) = (nodeIPs, None)
       /\ nodeIPs <> []
       /\ firstNodePort service = Some nodePort
       /\ ((http.StatusCode resp = http.StatusNotFound
            /\ requests (trace (manageOriginPool w clientset service))
               = [existsRequest w service;
                  payloadRequest w "POST" (originPoolsURL w)
                    (originPoolPayload w service nodeIPs nodePort)])
           \/ (http.StatusCode resp = http.StatusOK
               /\ requests (trace (manageOriginPool w clientset service))
                  = [existsRequest w service;
                     payloadRequest w "PUT"
                       (originPoolURL w (formatServiceName (corev1.Name service)))
                       (originPoolPayload w service nodeIPs nodePort)])).
Proof.
  rewrite manageOriginPool_run.
  destruct (url_Parse w _); [by left|].
  destruct (client_Do w _ _) as [resp|err]; [|by right; left].
  rewrite requests_Do.
  destruct (http.StatusCode resp =? http.StatusOK) eqn:H200.
  { rewrite requests_Log, updateOriginPool_push.
    destruct (pushOriginPool_requests w clientset service "PUT"
                (originPoolURL w (formatServiceName (corev1.Name service))))
      as [->|(t & ips & port & Hrun & Hne & Hport & _ & ->)]; [by right; left|].
    right; right. exists resp, ips, port. rewrite Hrun.
    repeat split; try done. right. split; [by apply Z.eqb_eq|reflexivity]. }
  destruct (http.StatusCode resp =? http.StatusNotFound) eqn:H404; [|by right; left].
  rewrite requests_Log, createOriginPool_push.
  destruct (pushOriginPool_requests w clientset service "POST" (originPoolsURL w))
    as [->|(t & ips & port & Hrun & Hne & Hport & _ & ->)]; [by right; left|].
  right; right. exists resp, ips, port. rewrite Hrun.
  repeat split; try done. left. split; [by apply Z.eqb_eq|reflexivity].
Qed.

(** X11.  Every request of a reconciliation or of a deletion carries the header
    Authorization, "APIToken " followed by XC_TOKEN; it carries the header
    Content-Type, "application/json", exactly when it has a body. *)
Theorem requests_authorized w clientset service req :
  req ∈ requests (trace (manageOriginPool w clientset service))
  \/ req ∈ requests (trace (deleteOriginPool w service)) ->
  http.Header req !! "Authorization" = Some ("APIToken " +:+ xc_token w)
  /\ http.Header req !! "Content-Type"
     = match http.Body req with Some _ => Some "application/json" | None => None end.
Proof.
  intros Hreq.
  assert (req = existsRequest w service \/ req = deleteRequest w service
          \/ exists method url payload, req = payloadRequest w method url payload)
    as [->|[->|(method & url & payload & ->)]].
  { destruct Hreq as [[client He]%requests_elem|[client He]%requests_elem].
    - apply manageOriginPool_events in He
        as [He|[He|(method & url & payload & _ & He)]];
        [discriminate|inversion He; by left|inversion He; right; right; by eauto].
    - apply deleteOriginPool_events in He as [He|He];
        [discriminate|inversion He; right; by left]. }
  - cbn [existsRequest http.Header http.Body].
    by rewrite lookup_insert_eq, lookup_insert_ne, lookup_empty.
  - cbn [deleteRequest http.Header http.Body].
    by rewrite lookup_insert_eq, lookup_insert_ne, lookup_insert_eq.
  - cbn [payloadRequest http.Header http.Body].
    by rewrite lookup_insert_eq, lookup_insert_ne, lookup_insert_eq.
Qed.

(** X12.  The existence check and the delete request are sent with a client whose
    timeout is ten seconds; the create and update requests are sent with
    [http.DefaultClient], which has no timeout. *)
Theorem request_timeouts w clientset service client req :
  Do client req ∈ trace (manageOriginPool w clientset service)
  \/ Do client req ∈ trace (deleteOriginPool w service) ->
  ((http.Method req = "GET" \/ http.Method req = "DELETE") /\ http.Timeout client = 10)
  \/ ((http.Method req = "POST" \/ http.Method req = "PUT")
      /\ client = http.DefaultClient /\ http.Timeout client = 0).
Proof.
  intros [He|He].
  - apply manageOriginPool_events in He
      as [He|[He|(method & url & payload & Hm & He)]]; [discriminate| |];
      inversion He; subst.
    + left. split; [by left|reflexivity].
    + right. by repeat split.
  - apply deleteOriginPool_events in He as [He|He]; [discriminate|].
    inversion He; subst. left. split; [by right|reflexivity].
Qed.

Lemma pushEnd_last w service method url nodeIPs err :
  exists format args,
    last (pushEnd w service method url nodeIPs err) = Some (Log format args).
Proof.
  unfold pushEnd. destruct err; [by eexists _, _|].
  destruct nodeIPs; [by eexists _, _|].
  destruct (firstNodePort service); [|by eexists _, _].
  destruct (url_Parse w url); [by eexists _, _|].
  destruct (client_Do w _ _) as [resp|]; [|by eexists _, _].
  destruct (http.StatusCode resp =? http.StatusOK); by eexists _, _.
Qed.

Lemma pushOriginPool_last w clientset service method url :
  exists format args,
    last (trace (pushOriginPool w clientset service method url)) = Some (Log format args).
Proof.
  rewrite pushOriginPool_run. cbn [trace fst]. rewrite last_app.
  destruct (pushEnd_last w service method url
              (fst (snd (getNodeIPsForService clientset service)))
              (snd (snd (getNodeIPsForService clientset service))))
    as (format & args & ->).
  by exists format, args.
Qed.

(** X13.  No run is silent about its outcome: the last thing a reconciliation
    does, and the last thing a deletion does, is to log a line, whichever
    way it ends. *)
Theorem runs_end_with_a_line w clientset service :
  (exists format args,
      last (trace (manageOriginPool w clientset service)) = Some (Log format args))
  /\ (exists format args,
         last (trace (deleteOriginPool w service)) = Some (Log format args)).
Proof.
  split.
  - rewrite manageOriginPool_run. destruct (url_Parse w _); [by eexists _, _|].
    destruct (client_Do w _ _) as [resp|err]; [|by eexists _, _].
    destruct (http.StatusCode resp =? http.StatusOK).
    { destruct (pushOriginPool_last w clientset service "PUT"
                  (originPoolURL w (formatServiceName (corev1.Name service))))
        as (format & args & Hlast).
      rewrite <- updateOriginPool_push in Hlast.
      exists format, args. by rewrite !last_cons, Hlast. }
    destruct (http.StatusCode resp =? http.StatusNotFound); [|by eexists _, _].
    destruct (pushOriginPool_last w clientset service "POST" (originPoolsURL w))
      as (format & args & Hlast).
    rewrite <- createOriginPool_push in Hlast.
    exists format, args. by rewrite !last_cons, Hlast.
  - rewrite deleteOriginPool_run. destruct (url_Parse w _); [by eexists _, _|].
    destruct (client_Do w _ _) as [resp|err]; [|by eexists _, _].
    destruct (http.StatusCode resp =? http.StatusOK); by eexists _, _.
Qed.



(** X15.  When the pods of the service cannot be listed, both paths log the error
    and send nothing; the existence check is then the only request of the
    reconciliation. *)
Theorem resolution_failure_aborts w clientset service err :
  Pods_List clientset (corev1.Namespace service) (corev1.Spec_Selector service) = inr err ->
  createOriginPool w clientset service
  = ([Log "Error fetching node IPs: %v"
          [AErr (Errorf_v "error fetching pods for service %s: %v"
                          [corev1.Name service] err)]], tt)
  /\ updateOriginPool w clientset service = createOriginPool w clientset service
  /\ forall req, req ∈ requests (trace (manageOriginPool w clientset service)) ->
                 req = existsRequest w service.
Proof.
  intros Hlist.
  assert (Hpush : forall method url,
             pushOriginPool w clientset service method url
             = ([Log "Error fetching node IPs: %v"
                     [AErr (Errorf_v "error fetching pods for service %s: %v"
                                     [corev1.Name service] err)]], tt)).
  { intros method url. unfold pushOriginPool, getNodeIPsForService. by rewrite Hlist. }
  rewrite createOriginPool_push, updateOriginPool_push, !Hpush.
  split; [reflexivity|]. split; [reflexivity|].
  intros req [client He]%requests_elem. revert He. rewrite manageOriginPool_run.
  rewrite createOriginPool_push, updateOriginPool_push, !Hpush. cbn [trace fst].
  destruct (url_Parse w _); [by intros [=]%list_elem_of_singleton|].
  intros [[= _ <-]|He]%elem_of_cons; [reflexivity|]. exfalso.
  destruct (client_Do w _ _) as [resp|]; [|by apply list_elem_of_singleton in He].
  destruct (http.StatusCode resp =? http.StatusOK).
  { apply elem_of_cons in He as [|He]; [done|]. by apply list_elem_of_singleton in He. }
  destruct (http.StatusCode resp =? http.StatusNotFound).
  { apply elem_of_cons in He as [|He]; [done|]. by apply list_elem_of_singleton in He. }
  by apply list_elem_of_singleton in He.
Qed.

(** X16.  A reconciliation depends on the service through its name, namespace and
    selector and through the node port of its first declared port only; its
    other ports and its type play no part.  A deletion depends on the name
    alone. *)
Theorem manageOriginPool_frame w clientset (service1 service2 : corev1.Service) :
  corev1.Name service1 = corev1.Name service2 ->
  deleteOriginPool w service1 = deleteOriginPool w service2
  /\ (corev1.Namespace service1 = corev1.Namespace service2 ->
      corev1.Spec_Selector service1 = corev1.Spec_Selector service2 ->
      firstNodePort service1 = firstNodePort service2 ->
      manageOriginPool w clientset service1 = manageOriginPool w clientset service2).
Proof.
  intros Hname. split; [unfold deleteOriginPool; by rewrite Hname|].
  intros Hns Hsel Hport.
  assert (Hres : getNodeIPsForService clientset service1
                 = getNodeIPsForService clientset service2).
  { unfold getNodeIPsForService. by rewrite Hname, Hns, Hsel. }
  assert (Hpush : forall method url,
             pushOriginPool w clientset service1 method url
             = pushOriginPool w clientset service2 method url).
  { intros method url.
    unfold pushOriginPool, originPoolPayload. by rewrite Hres, Hname, Hport. }
  unfold manageOriginPool, checkOriginPoolExists.
  rewrite !createOriginPool_push, !updateOriginPool_push, !Hpush. by rewrite Hname.
Qed.

End ReconcilerRuns.

(** ** The watch and the start-up *)

Section StartupProperties.
Context {U : UnicodeTables}.

(** A goroutine is started for the qualifying notifications only, and it is
    the reconciliation or the deletion of the service notified. *)
Lemma handle_qualifies w clientset n :
  match handle w clientset n with
  | Some g =>
      qualifies n = true
      /\ exists service,
           corev1.Spec_Type service = corev1.ServiceTypeNodePort
           /\ ((g = manageOriginPool w clientset service
                /\ (n = Added (ObjService service)
                    \/ exists oldService,
                         n = Updated (ObjService oldService) (ObjService service)))
               \/ (g = deleteOriginPool w service /\ n = Deleted (ObjService service)))
  | None => qualifies n = false
  end.
Proof.
  destruct n as [[service|]|[old|] [service|]|[service|]];
    cbn [handle AddFunc UpdateFunc DeleteFunc qualifies]; try reflexivity;
    destruct (String.eqb_spec (corev1.Spec_Type service) corev1.ServiceTypeNodePort)
      as [Hty|Hty]; try reflexivity;
    (split; [reflexivity|]); exists service; (split; [exact Hty|]); eauto.
Qed.

(** X17.  The watch starts one goroutine for each notification that concerns a
    NodePort service, and none for the others.  Every request it causes
    answers a notification: a DELETE is the delete request of a NodePort
    service whose deletion was notified, and any other request belongs to
    the reconciliation of a NodePort service that was notified as added or
    as the new state of an update.  An update away from NodePort starts
    nothing. *)
Theorem watchServices_attribution w clientset delivered namespace :
  length (watchServices w clientset delivered namespace)
  = length (filter (fun n => qualifies n = true) (delivered namespace))
  /\ forall g req,
       g ∈ watchServices w clientset delivered namespace ->
       req ∈ requests (trace g) ->
       exists service,
         corev1.Spec_Type service = corev1.ServiceTypeNodePort
         /\ ((http.Method req = "DELETE"
              /\ req = deleteRequest w service
              /\ Deleted (ObjService service) ∈ delivered namespace)
             \/ (http.Method req <> "DELETE"
                 /\ g = manageOriginPool w clientset service
                 /\ (Added (ObjService service) ∈ delivered namespace
                     \/ exists oldService,
                          Updated (ObjService oldService) (ObjService service)
                            ∈ delivered namespace))).
Proof.
  unfold watchServices. split.
  - induction (delivered namespace) as [|n ns IH]; [reflexivity|].
    cbn [omap list_omap]. rewrite filter_cons.
    pose proof (handle_qualifies w clientset n) as Hn.
    destruct (handle w clientset n) as [g|].
    + destruct Hn as [-> _]. rewrite decide_True by done. cbn [length]. by f_equal.
    + rewrite Hn. rewrite decide_False by done. exact IH.
  - intros g req (n & Hn & Hg)%list_elem_of_omap Hreq.
    pose proof (handle_qualifies w clientset n) as Hq. rewrite Hg in Hq.
    destruct Hq as (_ & service & Hty & [[-> Hadd]|[-> ->]]); exists service;
      (split; [exact Hty|]).
    + right. apply requests_elem in Hreq as [client He].
      apply manageOriginPool_events in He
        as [He|[He|(method & url & payload & Hm & He)]]; [discriminate| |];
        inversion He; subst.
      * split; [discriminate|]. split; [reflexivity|].
        destruct Hadd as [->|[old ->]]; eauto.
      * split; [by destruct Hm as [->| ->]|]. split; [reflexivity|].
        destruct Hadd as [->|[old ->]]; eauto.
    + left. apply requests_elem in Hreq as [client He].
      apply deleteOriginPool_events in He as [He|He]; [discriminate|].
      inversion He; subst. by repeat split.
Qed.

(** X18.  [main] ends in the fatal line about the environment exactly when one of
    XC_NAMESPACE, XC_TOKEN, API_DOMAIN and XC_SITENAME is unset or empty,
    before the cluster is contacted; XC_SITEINTERFACE and KUBE_NAMESPACE
    are not required.  It reaches the watch exactly when the four are set,
    the in-cluster configuration is found and the clientset is built. *)
Theorem main_outcome w b :
  ((exists key, key ∈ required /\ os_Getenv w key = "")
   <-> main w b
       = Fatal "XC_NAMESPACE, XC_TOKEN, XC_SITENAME, and API_DOMAIN environment variables must be set" [])
  /\ forall goroutines,
       main w b = Watching goroutines
       <-> (forall key, key ∈ required -> os_Getenv w key <> "")
           /\ exists config clientset,
                rest_InClusterConfig b = inl config
                /\ kubernetes_NewForConfig b config = inl clientset
                /\ goroutines
                   = watchServices w clientset (informer b clientset) (k8s_namespace w).
Proof.
  assert (Hmiss : (String.eqb (xc_namespace w) "" || String.eqb (xc_token w) ""
                   || String.eqb (api_domain w) "" || String.eqb (xc_sitename w) "") = true
                  <-> exists key, key ∈ required /\ os_Getenv w key = "").
  { unfold xc_namespace, xc_token, api_domain, xc_sitename, required.
    rewrite !orb_true_iff, !String.eqb_eq. split.
    - intros [[[H|H]|H]|H]; eexists; (split; [|exact H]);
        repeat first [by left | right].
    - intros (key & Hkey & Hempty).
      repeat (apply elem_of_cons in Hkey as [->|Hkey]; [by auto|]). inversion Hkey. }
  unfold main, getClientSet.
  destruct (_ || _ || _ || _) eqn:Hcheck.
  - pose proof (proj1 Hmiss eq_refl) as (key & Hin & Hempty). split.
    + split; [reflexivity|]. intros _. by exists key.
    + intros gs. split; [discriminate|]. intros [Hall _]. by destruct (Hall key Hin).
  - assert (Hall : forall key, key ∈ required -> os_Getenv w key <> "").
    { intros key Hin Hempty. assert (false = true); [|discriminate].
      apply Hmiss. by exists key. }
    split.
    + split.
      * intros (key & Hin & Hempty). by destruct (Hall key Hin).
      * destruct (rest_InClusterConfig b) as [config|];
          [destruct (kubernetes_NewForConfig b config)|]; discriminate.
    + intros gs. split.
      * destruct (rest_InClusterConfig b) as [config|]; [|discriminate].
        destruct (kubernetes_NewForConfig b config) as [clientset|] eqn:Hnew;
          [|discriminate].
        intros [= <-]. split; [exact Hall|]. by exists config, clientset.
      * intros (_ & config & clientset & -> & -> & ->). reflexivity.
Qed.

Lemma manageOriginPool_ignores_siteinterface w clientset service side :
  manageOriginPool (setenv "XC_SITEINTERFACE" side w) clientset service
  = manageOriginPool w clientset service.
Proof.
  unfold manageOriginPool, checkOriginPoolExists, http_NewRequest, Do_,
    api_domain, xc_namespace, xc_token.
  rewrite createOriginPool_ignores_siteinterface, updateOriginPool_ignores_siteinterface.
  cbn [setenv url_Parse client_Do]. by rewrite !os_Getenv_setenv_ne.
Qed.

Lemma deleteOriginPool_ignores_siteinterface w service side :
  deleteOriginPool (setenv "XC_SITEINTERFACE" side w) service = deleteOriginPool w service.
Proof.
  unfold deleteOriginPool, http_NewRequest, Do_.
  cbn [setenv url_Parse client_Do]. by rewrite !os_Getenv_setenv_ne.
Qed.

(** X19.  Nothing the program does depends on XC_SITEINTERFACE: with any value
    for it, or none, [main] ends the same way and the watch starts the same
    goroutines, which run the same way. *)
Theorem main_ignores_siteinterface w b side :
  main (setenv "XC_SITEINTERFACE" side w) b = main w b
  /\ forall clientset delivered namespace,
       watchServices (setenv "XC_SITEINTERFACE" side w) clientset delivered namespace
       = watchServices w clientset delivered namespace.
Proof.
  assert (Hwatch : forall clientset delivered namespace,
             watchServices (setenv "XC_SITEINTERFACE" side w) clientset delivered namespace
             = watchServices w clientset delivered namespace).
  { intros clientset delivered namespace. unfold watchServices.
    apply list_omap_ext, Forall2_same_length_lookup_2; [reflexivity|].
    intros i n n' Hn Hn'. assert (n' = n) as -> by congruence.
    destruct n as [[service|]|[old|] [service|]|[service|]];
      cbn [handle AddFunc UpdateFunc DeleteFunc]; try reflexivity;
      destruct (String.eqb _ _); try reflexivity;
      by rewrite ?manageOriginPool_ignores_siteinterface,
                 ?deleteOriginPool_ignores_siteinterface. }
  split; [|exact Hwatch].
  unfold main, xc_namespace, xc_token, api_domain, xc_sitename, k8s_namespace.
  rewrite !os_Getenv_setenv_ne by done.
  destruct (_ || _ || _ || _); [reflexivity|].
  destruct (getClientSet b) as [clientset|[format args]]; [|reflexivity].
  by rewrite Hwatch.
Qed.

End StartupProperties.

(** ** Runs on the sample worlds, continued *)

Section MoreRuns.

Lemma getNodeIPsForService_log_demo :
  trace (getNodeIPsForService Demo.cluster Sample.web)
  = [Log "Error fetching node %s for pod %s: %v"
         [AStr "C"; AStr "p3"; AErr (LibError "node not found")];
     Log "Error fetching node %s for pod %s: %v"
         [AStr "C"; AStr "p7"; AErr (LibError "node not found")]].
Proof.
  pose proof (getNodeIPsForService_log Demo.cluster Sample.web) as [Htrace _].
  exact Htrace.
Defined.

Lemma requests_authorized_sample :
  requests (trace (@manageOriginPool Sample.tables Sample.ok Sample.cluster Sample.web))
  = [@existsRequest Sample.tables Sample.ok Sample.web;
     @payloadRequest Sample.ok "PUT"
       "https://api.example.com/api/config/namespaces/prod/origin_pools/web"
       (@originPoolPayload Sample.tables Sample.ok Sample.web ["10.0.0.1"; "10.0.0.2"] 30080)]
  /\ http.Header (@existsRequest Sample.tables Sample.ok Sample.web) !! "Authorization"
     = Some "APIToken secret"
  /\ http.Header (@existsRequest Sample.tables Sample.ok Sample.web) !! "Content-Type" = None.
Proof.
  split; [reflexivity|].
  exact (@requests_authorized Sample.tables Sample.ok Sample.cluster Sample.web _
           (or_introl (list_elem_of_here _ _))).
Defined.

Lemma request_timeouts_sample :
  Do http.DefaultClient
     (@payloadRequest Sample.ok "PUT"
        "https://api.example.com/api/config/namespaces/prod/origin_pools/web"
        (@originPoolPayload Sample.tables Sample.ok Sample.web ["10.0.0.1"; "10.0.0.2"] 30080))
    ∈ trace (@manageOriginPool Sample.tables Sample.ok Sample.cluster Sample.web)
  /\ http.Timeout http.DefaultClient = 0.
Proof.
  assert (Hin : Do http.DefaultClient
                  (@payloadRequest Sample.ok "PUT"
                     "https://api.example.com/api/config/namespaces/prod/origin_pools/web"
                     (@originPoolPayload Sample.tables Sample.ok Sample.web
                        ["10.0.0.1"; "10.0.0.2"] 30080))
                  ∈ trace (@manageOriginPool Sample.tables Sample.ok Sample.cluster Sample.web)).
  { apply list_elem_of_further, list_elem_of_further, list_elem_of_here. }
  split; [exact Hin|].
  destruct (@request_timeouts Sample.tables Sample.ok Sample.cluster Sample.web _ _
              (or_introl Hin)) as [[_ H10]|(_ & _ & H0)]; [discriminate H10|exact H0].
Defined.


Lemma resolution_failure_aborts_demo :
  Pods_List Demo.unreachable "default" {[ "app" := "web" ]}
  = inr (LibError "connection refused")
  /\ @createOriginPool Sample.tables Sample.missing Demo.unreachable Sample.web
     = ([Log "Error fetching node IPs: %v"
             [AErr (Errorf_v "error fetching pods for service %s: %v" ["web"]
                             (LibError "connection refused"))]], tt).
Proof.
  split; [reflexivity|].
  destruct (@resolution_failure_aborts Sample.tables Sample.missing Demo.unreachable Sample.web
              (LibError "connection refused") eq_refl) as [Hcreate _].
  exact Hcreate.
Defined.

Lemma manageOriginPool_frame_sample :
  firstNodePort Demo.balancer = firstNodePort Sample.web
  /\ @manageOriginPool Sample.tables Sample.ok Sample.cluster Demo.balancer
     = @manageOriginPool Sample.tables Sample.ok Sample.cluster Sample.web
  /\ corev1.Namespace Demo.namesake <> corev1.Namespace Sample.web
  /\ firstNodePort Demo.namesake <> firstNodePort Sample.web
  /\ @deleteOriginPool Sample.tables Sample.ok Demo.namesake
     = @deleteOriginPool Sample.tables Sample.ok Sample.web.
Proof.
  split; [reflexivity|]. split.
  { exact (proj2 (@manageOriginPool_frame Sample.tables Sample.ok Sample.cluster
                    Demo.balancer Sample.web eq_refl) eq_refl eq_refl eq_refl). }
  split; [discriminate|]. split; [discriminate|].
  exact (proj1 (@manageOriginPool_frame Sample.tables Sample.ok Sample.cluster
                  Demo.namesake Sample.web eq_refl)).
Defined.

Lemma watchServices_attribution_demo :
  length (@watchServices Sample.tables Sample.ok Sample.cluster
            (informer Demo.boot Sample.cluster) "default") = 2%nat
  /\ exists service,
       corev1.Spec_Type service = corev1.ServiceTypeNodePort
       /\ Deleted (ObjService service) ∈ informer Demo.boot Sample.cluster "default"
       /\ @deleteRequest Sample.tables Sample.ok Sample.web
          = @deleteRequest Sample.tables Sample.ok service.
Proof.
  destruct (@watchServices_attribution Sample.tables Sample.ok Sample.cluster
              (informer Demo.boot Sample.cluster) "default") as [Hlen Hreq].
  split; [rewrite Hlen; reflexivity|].
  destruct (Hreq (@deleteOriginPool Sample.tables Sample.ok Sample.web)
              (@deleteRequest Sample.tables Sample.ok Sample.web))
    as (service & Hty & [(_ & Heq & Hin)|(Hne & _)]).
  - apply list_elem_of_further, list_elem_of_here.
  - apply list_elem_of_here.
  - by exists service.
  - by destruct Hne.
Defined.

Lemma main_outcome_demo :
  @main Sample.tables Demo.tokenless Demo.boot
  = Fatal "XC_NAMESPACE, XC_TOKEN, XC_SITENAME, and API_DOMAIN environment variables must be set" []
  /\ exists goroutines,
       @main Sample.tables Sample.ok Demo.boot = Watching goroutines
       /\ length goroutines = 2%nat.
Proof.
  destruct (@main_outcome Sample.tables Demo.tokenless Demo.boot) as [Hfatal _].
  split.
  - apply Hfatal. exists "XC_TOKEN". split; [|reflexivity].
    apply list_elem_of_further, list_elem_of_here.
  - eexists. split; [reflexivity|reflexivity].
Defined.

End MoreRuns.
